(** * ImpactIndiaAI: the resumable enrichment pipeline, embedded in Rocq

    A shallow embedding of the stage runners ([fetch_about_pages.py],
    [categorize_startups.py], [enrich_startups.py]), of the AI producer
    adapters ([enrich_startups.py], [enhance_missing_data.py]) and of the
    local fallback ([fill_summaries_locally.py]), followed by the properties
    of the specification that concern them.

    Conventions.
    - A Python [str] is a Rocq [string], one character per code point; the
      character classes ([str.isspace], [str.lower]) are the ones Python
      uses on the code points 0..255.
    - A Python [dict] that holds a record is a [gmap string json]; [json] is
      the value type of the [json] module.
    - An exception that leaves a function is the result [None]; calls to the
      network are oracles, bound as section variables.
    - [print] and [time.sleep] are left out: they change no value. *)

From Stdlib Require Import ZArith Ascii String List Bool Arith Lia.
From stdpp Require Import base option list gmap strings.

Local Open Scope string_scope.
Local Open Scope list_scope.
Local Open Scope nat_scope.

(* ===================================================================== *)
(** * Part I. Definitions                                                 *)
(* ===================================================================== *)

(** ** Python strings *)

Module PyStr.

(** [len(s)] *)
Definition len (s : string) : nat := String.length s.

(** [c.isspace()], for code points below 256. *)
Definition is_space (c : ascii) : bool :=
  let n := nat_of_ascii c in
  ((9 <=? n) && (n <=? 13)) || ((28 <=? n) && (n <=? 32))
  || (n =? 133) || (n =? 160).

(** [c.lower()], for code points below 256: A-Z, and the Latin-1 capitals
    0xC0-0xDE but for the multiplication sign 0xD7. *)
Definition lower_char (c : ascii) : ascii :=
  let n := nat_of_ascii c in
  if ((65 <=? n) && (n <=? 90))
     || ((192 <=? n) && (n <=? 222) && negb (n =? 215))
  then ascii_of_nat (n + 32) else c.

(** [s.lower()] *)
Fixpoint lower (s : string) : string :=
  match s with
  | EmptyString => EmptyString
  | String c s' => String (lower_char c) (lower s')
  end.

(** [s.startswith(p)] *)
Fixpoint startswith (p s : string) : bool :=
  match p, s with
  | EmptyString, _ => true
  | String a p', String b s' => if Ascii.eqb a b then startswith p' s' else false
  | String _ _, EmptyString => false
  end.

(** [p in s] *)
Fixpoint contains (p s : string) : bool :=
  startswith p s ||
  match s with
  | EmptyString => false
  | String _ s' => contains p s'
  end.

(** [s[:n]] for [n >= 0] *)
Fixpoint take (n : nat) (s : string) : string :=
  match n, s with
  | S n', String c s' => String c (take n' s')
  | _, _ => EmptyString
  end.

(** [s[n:]] for [n >= 0] *)
Fixpoint drop (n : nat) (s : string) : string :=
  match n, s with
  | S n', String _ s' => drop n' s'
  | _, _ => s
  end.

(** [s.lstrip()] *)
Fixpoint lstrip (s : string) : string :=
  match s with
  | String c s' => if is_space c then lstrip s' else s
  | EmptyString => EmptyString
  end.

(** [s.rstrip()] *)
Fixpoint rstrip (s : string) : string :=
  match s with
  | EmptyString => EmptyString
  | String c s' =>
      match rstrip s' with
      | EmptyString => if is_space c then EmptyString else String c EmptyString
      | r => String c r
      end
  end.

(** [s.strip()] *)
Definition strip (s : string) : string := rstrip (lstrip s).

(** [sep.join(parts)] *)
Fixpoint join (sep : string) (parts : list string) : string :=
  match parts with
  | [] => EmptyString
  | [p] => p
  | p :: rest => p +:+ sep +:+ join sep rest
  end.

(** [s.split(c)] for a one-character separator: the pieces between the
    occurrences of [c], never an empty list. *)
Fixpoint split_char (c : ascii) (s : string) : list string :=
  match s with
  | EmptyString => [EmptyString]
  | String a s' =>
      if Ascii.eqb a c then EmptyString :: split_char c s'
      else match split_char c s' with
           | p :: ps => String a p :: ps
           | [] => [String a EmptyString]
           end
  end.

(** [not s] *)
Definition is_empty (s : string) : bool :=
  match s with EmptyString => true | _ => false end.

End PyStr.

(** ** JSON values and records *)

(** What [json.load] returns. A number is kept as an integer: the pipeline
    only tests numbers for truth. *)
#[warnings="-register-all"]
Inductive json : Type :=
  | JNull
  | JBool (b : bool)
  | JNum (n : Z)
  | JStr (s : string)
  | JArr (items : list json)
  | JObj (fields : list (string * json)).

(** A record of the Record Store: a Python [dict] with string keys. *)
Abbreviation record := (gmap string json).

(** The map from entity name to [about_content] that the later stages build
    from [startup_about_pages.json]; the fetch stage writes [None] or text. *)
Abbreviation about_map := (gmap string (option string)).

Module Py.

(** [bool(v)] *)
Definition truthy (v : json) : bool :=
  match v with
  | JNull => false
  | JBool b => b
  | JNum n => negb (n =? 0)%Z
  | JStr s => negb (PyStr.is_empty s)
  | JArr l => match l with [] => false | _ => true end
  | JObj l => match l with [] => false | _ => true end
  end.

(** [v == s] for a string [s] *)
Definition eq_str (v : json) (s : string) : bool :=
  match v with JStr t => String.eqb t s | _ => false end.

(** [v in [s1, ..., sn]] for strings *)
Definition in_strs (v : json) (l : list string) : bool := existsb (eq_str v) l.

(** [v is None], which is also [v == None] on JSON values *)
Definition is_none (v : json) : bool :=
  match v with JNull => true | _ => false end.

(** [d.get(k)]: the value, [None] when the key is absent *)
Definition get (d : record) (k : string) : json := default JNull (d !! k).

(** [bool(o)] for a value that is [None] or a string *)
Definition truthy_opt (o : option string) : bool :=
  match o with Some s => negb (PyStr.is_empty s) | None => false end.

(** [m.get(name, '')] on an entity-name map, for [name] a JSON value: a key
    that is no string is not in the map, and a list or a dict cannot be
    hashed ([TypeError], the outer [None]). *)
Definition about_get (m : about_map) (name : json) : option (option string) :=
  match name with
  | JStr n => Some (default (Some EmptyString) (m !! n))
  | JArr _ | JObj _ => None
  | _ => Some (Some EmptyString)
  end.

End Py.

(** ** fill_summaries_locally.py *)

Module LocalEnricher.

(** [self.category_keywords], in the order the dict declares them. *)
Definition category_keywords : list (string * list string) :=
  [ ("Healthcare & Biotech", ["health"; "medical"; "patient"; "diagnostic"; "clinic"; "hospital"; "pharma"; "biotech"]);
    ("Fintech & Banking", ["finance"; "bank"; "payment"; "fintech"; "loan"; "credit"; "wealth"; "insurtech"; "invest"]);
    ("Education & EdTech", ["education"; "learning"; "student"; "school"; "training"; "edtech"; "course"; "skill"; "university"; "academy"]);
    ("Agriculture & AgriTech", ["farm"; "agri"; "crop"; "harvest"; "soil"; "cattle"; "dairy"; "livestock"]);
    ("Cybersecurity", ["security"; "cyber"; "protection"; "threat"; "firewall"; "auth"; "defense"; "secure"]);
    ("E-commerce & Retail", ["retail"; "ecommerce"; "shop"; "store"; "buy"; "sell"; "marketplace"; "consumer"]);
    ("Robotics & Automation", ["robot"; "drone"; "automation"; "autonomous"; "unmanned"]);
    ("Logistics & Supply Chain", ["logistics"; "supply chain"; "transport"; "delivery"; "fleet"; "warehouse"]);
    ("Real Estate & PropTech", ["real estate"; "property"; "housing"; "construction"; "building"]);
    ("HR & Workforce Management", ["hr"; "recruitment"; "hiring"; "talent"; "employee"; "workforce"]);
    ("Marketing & Sales Tech", ["marketing"; "sales"; "adtech"; "brand"; "customer"; "crm"]);
    ("Climate & Sustainability", ["climate"; "sustainable"; "carbon"; "energy"; "solar"; "waste"; "water"; "green"]);
    ("AI/ML Infrastructure & Tools", ["ai"; "machine learning"; "ml"; "data"; "analytics"; "cloud"; "software"; "platform"; "algorithm"; "model"]) ].

(** [re.sub(r'\s+', ' ', text)]: every maximal run of whitespace becomes one
    space. [in_run] says that the character before was whitespace. *)
Fixpoint collapse_spaces (in_run : bool) (s : string) : string :=
  match s with
  | EmptyString => EmptyString
  | String c s' =>
      if PyStr.is_space c
      then if in_run then collapse_spaces true s'
           else String " " (collapse_spaces true s')
      else String c (collapse_spaces false s')
  end.

(** The class [[\s\-\:]] of the prefix pattern. *)
Definition is_prefix_sep (c : ascii) : bool :=
  PyStr.is_space c || Ascii.eqb c "-" || Ascii.eqb c ":".

(** The greedy [[\s\-\:]+] of the prefix pattern: the text after the run. *)
Fixpoint drop_prefix_seps (s : string) : string :=
  match s with
  | String c s' => if is_prefix_sep c then drop_prefix_seps s' else s
  | EmptyString => EmptyString
  end.

(** The alternatives of the prefix pattern, already in lower case. *)
Definition about_prefixes : list string :=
  ["about us"; "our story"; "welcome to"; "who we are"].

(** [re.sub(r'^(About Us|Our Story|Welcome to|Who We Are)[\s\-\:]+', '',
    text, flags=re.IGNORECASE)]: the first alternative that matches at the
    start, followed by at least one separator, is removed with the
    separators. *)
Fixpoint strip_about_prefix (alts : list string) (text : string) : string :=
  match alts with
  | [] => text
  | p :: alts' =>
      let n := PyStr.len p in
      if String.eqb (PyStr.lower (PyStr.take n text)) p
      then match PyStr.drop n text with
           | String c rest =>
               if is_prefix_sep c then drop_prefix_seps rest
               else strip_about_prefix alts' text
           | EmptyString => strip_about_prefix alts' text
           end
      else strip_about_prefix alts' text
  end.

(** [clean_text] *)
Definition clean_text (text : option string) : string :=
  match text with
  | None => EmptyString
  | Some t =>
      if PyStr.is_empty t then EmptyString
      else strip_about_prefix about_prefixes (PyStr.strip (collapse_spaces false t))
  end.

(** The class [[.!?]] of the sentence pattern. *)
Definition is_terminator (c : ascii) : bool :=
  Ascii.eqb c "." || Ascii.eqb c "!" || Ascii.eqb c "?".

(** Where the scan of [re.split] stands: in a piece, after a character that
    is or is not a terminator, or in the whitespace of a separator. *)
Inductive split_mode : Type :=
  | InPiece (after_terminator : bool)
  | InSeparator.

Definition cons_head (c : ascii) (pieces : list string) : list string :=
  match pieces with
  | p :: ps => String c p :: ps
  | [] => [String c EmptyString]
  end.

(** [re.split(r'(?<=[.!?])\s+', text)]: the head of the result is the piece
    the scan is in. A separator is a maximal run of whitespace that follows
    a terminator; a separator at the end of the text leaves an empty last
    piece, as [re.split] does. *)
Fixpoint split_scan (m : split_mode) (s : string) : list string :=
  match s with
  | EmptyString => [EmptyString]
  | String c s' =>
      match m with
      | InSeparator =>
          if PyStr.is_space c then split_scan InSeparator s'
          else cons_head c (split_scan (InPiece (is_terminator c)) s')
      | InPiece after =>
          if after && PyStr.is_space c
          then EmptyString :: split_scan InSeparator s'
          else cons_head c (split_scan (InPiece (is_terminator c)) s')
      end
  end.

Definition split_sentences (text : string) : list string :=
  split_scan (InPiece false) text.

(** The test of the loop of [extract_summary], negated: the sentence is
    kept. *)
Definition qualifies (sent : string) : bool :=
  negb ((PyStr.len sent <? 5)
        || PyStr.contains "cookie" (PyStr.lower sent)
        || PyStr.contains "copyright" (PyStr.lower sent)).

(** The loop of [extract_summary]: [summary_sentences] and [char_count] are
    the loop's variables, the result is [summary_sentences] at its end. *)
Fixpoint collect (sentences : list string) (summary_sentences : list string)
    (char_count : nat) : list string :=
  match sentences with
  | [] => summary_sentences
  | sent :: rest =>
      if qualifies sent then
        let summary_sentences := summary_sentences ++ [sent] in
        let char_count := char_count + PyStr.len sent in
        if 350 <? char_count then summary_sentences
        else collect rest summary_sentences char_count
      else collect rest summary_sentences char_count
  end.

(** [summary[:400] + "..." if len(summary) > 400 else summary] *)
Definition truncate (summary : string) : string :=
  if 400 <? PyStr.len summary then PyStr.take 400 summary +:+ "..." else summary.

(** [extract_summary] *)
Definition extract_summary (text : option string) : option string :=
  match text with
  | None => None
  | Some t =>
      if PyStr.is_empty t || (PyStr.len t <? 20) then None
      else
        match collect (split_sentences t) [] 0 with
        | [] => None
        | summary_sentences => Some (truncate (PyStr.join " " summary_sentences))
        end
  end.

(** [sum(1 for kw in keywords if kw in text_lower)] *)
Definition score (keywords : list string) (text_lower : string) : nat :=
  length (filter (fun kw => PyStr.contains kw text_lower = true) keywords).

(** The dict [scores]: the categories of positive score, in the order of
    the mapping. *)
Definition scores_of (mapping : list (string * list string)) (text_lower : string)
    : list (string * nat) :=
  filter (fun cs => 0 < cs.2)
         (map (fun ck => (ck.1, score ck.2 text_lower)) mapping).

(** [max(scores, key=scores.get)] from the second key on: [max] keeps the
    first key whose score is the greatest, and replaces it only by a
    strictly greater one. *)
Fixpoint max_from (best : string * nat) (rest : list (string * nat)) : string :=
  match rest with
  | [] => best.1
  | cs :: rest' => if best.2 <? cs.2 then max_from cs rest' else max_from best rest'
  end.

Definition categorize_with (mapping : list (string * list string)) (text : string) : string :=
  if PyStr.is_empty text then "Other"
  else
    match scores_of mapping (PyStr.lower text) with
    | [] => "Other"
    | first :: rest => max_from first rest
    end.

(** [categorize_by_keywords] *)
Definition categorize_by_keywords (text : string) : string :=
  categorize_with category_keywords text.

(** What the specification asks of [max]: [c], with score [n], stands in
    [l] where the greatest score comes first, every score before being
    smaller and none after greater. *)
Definition first_max (l : list (string * nat)) (c : string) (n : nat) : Prop :=
  exists before after,
    l = before ++ (c, n) :: after
    /\ Forall (fun x => x.2 < n) before
    /\ Forall (fun x => x.2 <= n) after.

(** The two tests at the head of the loop of [run]. *)
Definition needs_summary (startup : record) : bool :=
  let v := Py.get startup "summary" in
  Py.in_strs v ["Failed to process with AI"; "No information available"]
  || Py.is_none v.

Definition needs_category (startup : record) : bool :=
  Py.in_strs (Py.get startup "category") ["Error"; "No Data"].

(** [new_cat.split('&')[0].strip()] *)
Definition category_tag (new_cat : string) : string :=
  PyStr.strip (hd EmptyString (PyStr.split_char "&" new_cat)).

(** Step 1 of the loop body, [# 1. Fill Summary]. *)
Definition fill_summary (cleaned_content : string) (startup : record) : record :=
  match extract_summary (Some cleaned_content) with
  | Some extracted =>
      if PyStr.is_empty extracted
      then <["summary" := JStr "Information not available."]> startup
      else <["confidence" := JStr "Low (Extracted)"]>
             (<["summary" := JStr extracted]> startup)
  | None => <["summary" := JStr "Information not available."]> startup
  end.

(** Step 2 of the loop body, [# 2. Fill Category]. *)
Definition fill_category (cleaned_content : string) (startup : record) : record :=
  if PyStr.is_empty cleaned_content
  then <["category" := JStr "Uncategorized"]> startup
  else
    let new_cat := categorize_by_keywords cleaned_content in
    let startup' := <["category" := JStr new_cat]> startup in
    if Py.truthy (Py.get startup' "tags") then startup'
    else <["tags" := JArr [JStr (category_tag new_cat)]]> startup'.

(** [cleaned_content] of the loop body, for a record whose name can be
    read. *)
Definition cleaned_content_of (about : about_map) (startup : record) : option string :=
  name ← startup !! "name";
  about_content ← Py.about_get about name;
  Some (clean_text about_content).

(** The body of the loop of [run] on one record. [None] is the [KeyError]
    of [startup['name']] or the [TypeError] of a name that cannot be a key. *)
Definition enrich_record (about : about_map) (startup : record) : option record :=
  if needs_summary startup || needs_category startup then
    match startup !! "name" with
    | None => None
    | Some name =>
        match Py.about_get about name with
        | None => None
        | Some about_content =>
            let cleaned_content := clean_text about_content in
            let startup1 :=
              if needs_summary startup then fill_summary cleaned_content startup
              else startup in
            Some (if needs_category startup then fill_category cleaned_content startup1
                  else startup1)
        end
    end
  else Some startup.

(** [run], after [load_data]: the records as [save_results] writes them, or
    [None] when the loop raised (nothing is written then). *)
Fixpoint run (about : about_map) (results : list record) : option (list record) :=
  match results with
  | [] => Some []
  | startup :: rest =>
      match enrich_record about startup with
      | None => None
      | Some startup' =>
          match run about rest with
          | None => None
          | Some rest' => Some (startup' :: rest')
          end
      end
  end.

End LocalEnricher.

(** ** The records of the fetch stage *)

(** [status] of a fetch-stage record. *)
Inductive status : Type :=
  | pending
  | success
  | website_not_found
  | content_fetch_failed.

(** The dict that [StartupAboutFetcher.process_startup] builds: its five
    keys are always there, and [None] or a string is all it stores. *)
Record page : Type := mk_page {
  pg_name : string;
  pg_website : option string;
  pg_about_page_url : option string;
  pg_about_content : option string;
  pg_status : status
}.

(** ** The external text-generation service *)

Module Gemini.

(** What [client.models.generate_content(...)] followed by [response.text]
    may do: raise (with the text of the exception), answer without text, or
    answer with text. *)
Inductive api_outcome : Type :=
  | ApiRaises (message : string)
  | ApiNoText
  | ApiText (text : string).

(** What [json.loads] may do. *)
Inductive parse_result : Type :=
  | ParseError (message : string)
  | Parsed (value : json).

(** What the adapters hand to the service: the entity name and the prefix
    of the content, inside a fixed wording. *)
Record prompt : Type := mk_prompt {
  prompt_name : json;
  prompt_content : string
}.

Definition newline : string := String "010"%char EmptyString.

Definition fence : string := "```".

(** [d[k]] on a parsed object: [None] is the [KeyError]; on any other JSON
    value it is the [TypeError]. The fields are the items of the dict. *)
Fixpoint fields_get (fields : list (string * json)) (k : string) : option json :=
  match fields with
  | [] => None
  | (k', v) :: rest => if String.eqb k' k then Some v else fields_get rest k
  end.

Definition subscript (v : json) (k : string) : option json :=
  match v with
  | JObj fields => fields_get fields k
  | _ => None
  end.

(** A dict literal as a JSON object. *)
Definition of_opt (o : option string) : json :=
  match o with Some s => JStr s | None => JNull end.

End Gemini.

(** ** The loop the three stage runners share *)

Module StageRunner.

(** [l[a:b]] for integers [a] and [b], as Python clips them. *)
Definition clamp_index (i n : Z) : Z :=
  if (i <? 0)%Z then Z.max 0 (i + n) else Z.min i n.

Definition py_slice {A : Type} (l : list A) (a b : Z) : list A :=
  let n := Z.of_nat (length l) in
  let lo := clamp_index a n in
  let hi := clamp_index b n in
  take (Z.to_nat (hi - lo)) (drop (Z.to_nat lo) l).

(** [if limit:] for [limit] that is [None] or an integer. *)
Definition limit_given (limit : option Z) : bool :=
  match limit with Some n => negb (n =? 0)%Z | None => false end.

(** The head of [run]: the work list is cut only under [if limit:]. *)
Definition window {A : Type} (limit : option Z) (start_index : Z) (work : list A) : list A :=
  match limit with
  | Some n => if negb (n =? 0)%Z then py_slice work start_index (start_index + n) else work
  | None => work
  end.

(** How a run ends: the loop ran to its end, or an exception left it. *)
Inductive run_end : Type :=
  | Finished
  | Raised.

Section Loop.

Context {Item Result : Type}.

(** The name a work item is looked up by. *)
Variable item_name : Item -> string.

(** [r['name']] on a stored result; [None] is the [KeyError]. *)
Variable result_name : Result -> option json.

(** The stage's producer; [None] when it raises. *)
Variable process : Item -> option Result.

(** What a run has done so far: [self.results], the items the producer was
    called on, and every content [save_results] wrote to the output file. *)
Record run_state : Type := mk_state {
  rs_results : list Result;
  rs_calls : list Item;
  rs_saved : list (list Result)
}.

(** [any(r['name'] == name for r in self.results)] *)
Fixpoint already_processed (results : list Result) (name : string) : option bool :=
  match results with
  | [] => Some false
  | r :: rest =>
      match result_name r with
      | None => None
      | Some v => if Py.eq_str v name then Some true else already_processed rest name
      end
  end.

(** The [for] loop of [run]. *)
Fixpoint loop (work : list Item) (st : run_state) : run_state * run_end :=
  match work with
  | [] => (st, Finished)
  | item :: rest =>
      match already_processed (rs_results st) (item_name item) with
      | None => (st, Raised)
      | Some true => loop rest st
      | Some false =>
          let calls := rs_calls st ++ [item] in
          match process item with
          | None => (mk_state (rs_results st) calls (rs_saved st), Raised)
          | Some result =>
              let results := rs_results st ++ [result] in
              loop rest (mk_state results calls (rs_saved st ++ [results]))
          end
      end
  end.

(** [run(limit, start_index)] on the loaded work list; [prior] is the
    [results] array of the output file, when there is one. *)
Definition run (limit : option Z) (start_index : Z) (work : list Item)
    (prior : option (list Result)) : run_state * run_end :=
  loop (window limit start_index work) (mk_state (default [] prior) [] []).

(** [r] is stored under [name]: [r['name'] == name]. *)
Definition stored_as (name : string) (r : Result) : bool :=
  match result_name r with
  | Some v => Py.eq_str v name
  | None => false
  end.

(** What resuming asks of a stage's [run], whatever the window and the
    prior output: the stored records stay, in their places, at the head of
    the results, and the producer is called on no item that a stored record
    names. *)
Definition skips_stored
    (run : option Z -> Z -> list Item -> option (list Result) -> run_state * run_end)
    : Prop :=
  forall limit start_index work prior,
    let out := (run limit start_index work prior).1 in
    (exists appended, rs_results out = default [] prior ++ appended)
    /\ (forall item, item ∈ rs_calls out -> item ∈ window limit start_index work)
    /\ (forall item r,
          r ∈ default [] prior -> stored_as (item_name item) r = true ->
          item ∉ rs_calls out).

(** What resuming asks after a crash. The work list names each item once
    and the producer raises on none. A first run with no limit and no prior
    output is cut after it saved [k] records; the file then holds the
    records of the first [k] items. A fresh run with no limit on that
    file calls the producer on the other items, each once and in order,
    and ends with the results of a run that was never cut. *)
Definition resumes_after_crash
    (run : option Z -> Z -> list Item -> option (list Result) -> run_state * run_end)
    : Prop :=
  forall start_index start_index' work k,
    NoDup (item_name <$> work) ->
    (forall item, item ∈ work -> is_Some (process item)) ->
    k <= length work ->
    let first := run None start_index work None in
    let persisted := omap process (take k work) in
    let second := run None start_index' work (Some persisted) in
    first.2 = Finished
    /\ rs_results first.1 = omap process work
    /\ length persisted = k
    /\ (0 < k -> rs_saved first.1 !! (k - 1) = Some persisted)
    /\ second.2 = Finished
    /\ rs_calls second.1 = drop k work
    /\ rs_results second.1 = omap process work.

End Loop.

End StageRunner.

(** ** fetch_about_pages.py *)

Module StartupAboutFetcher.

Section Fetcher.

(** The three collaborators; each catches its own exceptions and answers
    [None] then. *)
Variable search_company_website : string -> option string.
Variable find_about_page_url : string -> option string.
Variable fetch_page_content : string -> option string.

(** [process_startup] *)
Definition process_startup (company_name : string) : page :=
  match search_company_website company_name with
  | Some website =>
      if PyStr.is_empty website
      then mk_page company_name None None None website_not_found
      else
        let about_url :=
          match find_about_page_url website with
          | Some url => if PyStr.is_empty url then website else url
          | None => website
          end in
        match fetch_page_content about_url with
        | Some content =>
            if PyStr.is_empty content
            then mk_page company_name (Some website) (Some about_url) None content_fetch_failed
            else mk_page company_name (Some website) (Some about_url) (Some content) success
        | None => mk_page company_name (Some website) (Some about_url) None content_fetch_failed
        end
  | None => mk_page company_name None None None website_not_found
  end.

Definition result_name (r : page) : option json := Some (JStr (pg_name r)).

(** [run] *)
Definition run (limit : option Z) (start_index : Z) (startups : list string)
    (prior : option (list page)) : StageRunner.run_state * StageRunner.run_end :=
  StageRunner.run (fun name => name) result_name
    (fun name => Some (process_startup name)) limit start_index startups prior.

End Fetcher.

End StartupAboutFetcher.

(** ** categorize_startups.py *)

Module StartupCategorizer.

(** [{**startup_data, "categorization": categorization}] *)
Record categorized : Type := mk_categorized {
  cz_page : page;
  cz_categorization : json
}.

Definition sentinel (primary_category explanation : string) : json :=
  JObj [ ("primary_category", JStr primary_category);
         ("explanation", JStr explanation);
         ("key_offerings", JArr []);
         ("confidence", JStr "Low") ].

Section Categorizer.

Variable generate_content : Gemini.prompt -> Gemini.api_outcome.
Variable json_loads : string -> Gemini.parse_result.

(** The clean-up of a fenced answer: every line that starts with the fence
    is dropped. *)
Definition strip_fence (response_text : string) : string :=
  if PyStr.startswith Gemini.fence response_text then
    PyStr.strip
      (PyStr.join Gemini.newline
         (filter (fun line => PyStr.startswith Gemini.fence line = false)
                 (PyStr.split_char "010" response_text)))
  else response_text.

(** [categorize_startup] *)
Definition categorize_startup (startup_data : page) : json :=
  match pg_about_content startup_data with
  | None => sentinel "Unknown" "No content available for analysis"
  | Some about_content =>
      if PyStr.is_empty about_content
      then sentinel "Unknown" "No content available for analysis"
      else
        let failed message := sentinel "Error" ("Failed to categorize: " +:+ message) in
        match generate_content
                (Gemini.mk_prompt (JStr (pg_name startup_data)) (PyStr.take 1500 about_content)) with
        | Gemini.ApiRaises message => failed message
        | Gemini.ApiNoText => failed "'NoneType' object has no attribute 'strip'"
        | Gemini.ApiText text =>
            match json_loads (strip_fence (PyStr.strip text)) with
            | Gemini.ParseError message => failed message
            | Gemini.Parsed categorization => categorization
            end
        end
  end.

(** [process_startup]; [None] when the line that prints the category and the
    confidence raises, the answer of the service not being an object that
    has both. *)
Definition process_startup (startup_data : page) : option categorized :=
  match pg_status startup_data with
  | success =>
      let categorization := categorize_startup startup_data in
      match Gemini.subscript categorization "primary_category",
            Gemini.subscript categorization "confidence" with
      | Some _, Some _ => Some (mk_categorized startup_data categorization)
      | _, _ => None
      end
  | _ =>
      Some (mk_categorized startup_data
              (sentinel "No Data" "Website or content not available"))
  end.

Definition result_name (r : categorized) : option json :=
  Some (JStr (pg_name (cz_page r))).

(** [run] *)
Definition run (limit : option Z) (start_index : Z) (startups : list page)
    (prior : option (list categorized)) : StageRunner.run_state * StageRunner.run_end :=
  StageRunner.run pg_name result_name process_startup limit start_index startups prior.

End Categorizer.

End StartupCategorizer.

(** ** enrich_startups.py *)

Module StartupEnricher.

(** [self.categories]: the taxonomy the prompt offers to the service. *)
Definition categories : list string :=
  [ "AI/ML Infrastructure & Tools";
    "Healthcare & Biotech";
    "Fintech & Banking";
    "Education & EdTech";
    "Agriculture & AgriTech";
    "Cybersecurity";
    "E-commerce & Retail";
    "Manufacturing & Industry 4.0";
    "Media & Entertainment";
    "Climate & Sustainability";
    "Logistics & Supply Chain";
    "Legal & Compliance";
    "HR & Workforce Management";
    "Marketing & Sales Tech";
    "Robotics & Automation";
    "IoT & Smart Devices";
    "Data Analytics & Business Intelligence";
    "Government & Public Sector";
    "Real Estate & PropTech";
    "Other" ].

(** The two dict literals of [enrich_with_ai]. *)
Definition sentinel (category summary : string) : json :=
  JObj [ ("category", JStr category);
         ("summary", JStr summary);
         ("key_offerings", JArr []);
         ("confidence", JStr "Low");
         ("tags", JArr []) ].

Definition no_data_result : json :=
  sentinel "No Data" "No information available for this startup.".

Definition error_result : json :=
  sentinel "Error" "Failed to process with AI".

Section Enricher.

Variable generate_content : Gemini.prompt -> Gemini.api_outcome.
Variable json_loads : string -> Gemini.parse_result.

(** The clean-up of a fenced answer: every line that starts with the fence
    or has [json] in it, in any case, is dropped. *)
Definition strip_fence (response_text : string) : string :=
  if PyStr.startswith Gemini.fence response_text then
    PyStr.strip
      (PyStr.join Gemini.newline
         (filter (fun line => PyStr.startswith Gemini.fence line = false
                              /\ PyStr.contains "json" (PyStr.lower line) = false)
                 (PyStr.split_char "010" response_text)))
  else response_text.

(** [enrich_with_ai]: the result, and the calls made to the service. *)
Definition enrich_with_ai (startup_name : string) (about_content : option string)
    : json * list Gemini.prompt :=
  match about_content with
  | None => (no_data_result, [])
  | Some content =>
      if PyStr.is_empty content then (no_data_result, [])
      else
        let prompt := Gemini.mk_prompt (JStr startup_name) (PyStr.take 1800 content) in
        (match generate_content prompt with
         | Gemini.ApiText text =>
             match json_loads (strip_fence (PyStr.strip text)) with
             | Gemini.Parsed enrichment => enrichment
             | Gemini.ParseError _ => error_result
             end
         | _ => error_result
         end, [prompt])
  end.

(** [self.startup_data] and [self.hall_data], as [load_data] leaves them. *)
Variable startup_data : gmap string page.
Variable hall_data : gmap string record.

(** [ai_data['summary'][:80]] raises unless the summary is text or a list. *)
Definition sliceable (v : json) : bool :=
  match v with JStr _ | JArr _ => true | _ => false end.

(** [enrich_startup]; [None] when a subscript of [ai_data] raises. *)
Definition enrich_startup (name : string) : option record :=
  let startup_info := startup_data !! name in
  let hall_info : record := default ∅ (hall_data !! name) in
  let hall := default (JStr "Unknown") (hall_info !! "hall") in
  let space_sqm := default (JStr "Unknown") (hall_info !! "space_sqm") in
  let website := Gemini.of_opt (startup_info ≫= pg_website) in
  match pg_status <$> startup_info with
  | Some success =>
      let ai_data := (enrich_with_ai name (startup_info ≫= pg_about_content)).1 in
      category ← Gemini.subscript ai_data "category";
      confidence ← Gemini.subscript ai_data "confidence";
      summary ← Gemini.subscript ai_data "summary";
      if sliceable summary then
        key_offerings ← Gemini.subscript ai_data "key_offerings";
        tags ← Gemini.subscript ai_data "tags";
        Some (list_to_map
                [ ("name", JStr name); ("hall", hall); ("space_sqm", space_sqm);
                  ("website", website);
                  ("about_page_url", Gemini.of_opt (startup_info ≫= pg_about_page_url));
                  ("logo_url", Py.get hall_info "logo_url");
                  ("category", category); ("summary", summary);
                  ("key_offerings", key_offerings); ("tags", tags);
                  ("confidence", confidence) ])
      else None
  | _ =>
      Some (list_to_map
              [ ("name", JStr name); ("hall", hall); ("space_sqm", space_sqm);
                ("website", website);
                ("category", JStr "No Data");
                ("summary", JStr "No information available");
                ("key_offerings", JArr []); ("confidence", JStr "Low");
                ("tags", JArr []) ])
  end.

Definition result_name (r : record) : option json := r !! "name".

(** [run]; [startup_names] is [list(self.startup_data.keys())]. *)
Definition run (limit : option Z) (start_index : Z) (startup_names : list string)
    (prior : option (list record)) : StageRunner.run_state * StageRunner.run_end :=
  StageRunner.run (fun name => name) result_name enrich_startup
    limit start_index startup_names prior.

End Enricher.



End StartupEnricher.

(** ** enhance_missing_data.py *)

Module StartupEnhancer.

(** The test [needs_summary], which [needs_enhancement] and
    [enhance_startup] both spell out. *)
Definition needs_summary (startup : record) : bool :=
  Py.in_strs (Py.get startup "category") ["Error"; "No Data"]
  || (let v := Py.get startup "summary" in
      Py.in_strs v ["No information available"; "Failed to process with AI";
                    "No information available for this startup."]
      || Py.is_none v).

(** [needs_enhancement] *)
Definition needs_enhancement (startup : record) : bool :=
  needs_summary startup || negb (Py.truthy (Py.get startup "linkedin_url")).

Section Enhancer.

Variable generate_content : Gemini.prompt -> Gemini.api_outcome.

(** [search_linkedin(name, website)]: it catches its own exceptions. *)
Variable search_linkedin : json -> json -> option string.

(** [self.about_content_map] *)
Variable about_content_map : about_map.

(** [generate_summary_with_ai] *)
Definition generate_summary_with_ai (startup_name : json) (about_content : option string)
    : option string :=
  match about_content with
  | None => None
  | Some content =>
      if PyStr.is_empty content || (PyStr.len content <? 50) then None
      else
        match generate_content (Gemini.mk_prompt startup_name (PyStr.take 1800 content)) with
        | Gemini.ApiText text => Some (PyStr.strip text)
        | _ => None
        end
  end.

(** The first half of [enhance_startup]: the summary. *)
Definition enhance_summary (name : json) (startup : record) : option record :=
  if needs_summary startup then
    about_content ← Py.about_get about_content_map name;
    Some (if Py.truthy_opt about_content then
            match generate_summary_with_ai name about_content with
            | Some summary =>
                if PyStr.is_empty summary then startup
                else <["confidence" := JStr "Medium"]> (<["summary" := JStr summary]> startup)
            | None => startup
            end
          else startup)
  else Some startup.

(** The second half: the LinkedIn page. The tests read [startup], the
    writes go to the copy [enhanced]. *)
Definition enhance_linkedin (name : json) (startup enhanced : record) : record :=
  if Py.truthy (Py.get startup "linkedin_url") then enhanced
  else
    match search_linkedin name (Py.get startup "website") with
    | Some linkedin_url =>
        if PyStr.is_empty linkedin_url then <["linkedin_url" := JNull]> enhanced
        else <["linkedin_url" := JStr linkedin_url]> enhanced
    | None => <["linkedin_url" := JNull]> enhanced
    end.

(** [enhance_startup]; [None] is the [KeyError] of [startup['name']] or the
    [TypeError] of a name that cannot be a key. *)
Definition enhance_startup (startup : record) : option record :=
  name ← startup !! "name";
  enhanced ← enhance_summary name startup;
  Some (enhance_linkedin name startup enhanced).

(** [[(i, s) for i, s in enumerate(self.results) if self.needs_enhancement(s)]] *)
Definition startups_to_process (results : list record) : list (nat * record) :=
  filter (fun ir => needs_enhancement ir.2 = true) (imap (fun i s => (i, s)) results).

(** The loop of [run]: each enhanced record replaces the one at its index. *)
Fixpoint loop (work : list (nat * record)) (results : list record) : option (list record) :=
  match work with
  | [] => Some results
  | (orig_idx, startup) :: rest =>
      enhanced ← enhance_startup startup;
      loop rest (<[orig_idx := enhanced]> results)
  end.

(** [run], after [load_data]: [self.results] at the end, or [None] when an
    exception left the loop. *)
Definition run (limit : option Z) (start_index : Z) (results : list record)
    : option (list record) :=
  loop (StageRunner.window limit start_index (startups_to_process results)) results.

End Enhancer.

End StartupEnhancer.

(** ** The Sentinel Policy *)

Module SentinelPolicy.

(** The values that the stages test a field for before they write it:
    [category] in [enhance_startup] and [LocalEnricher.run], [summary] and
    [linkedin_url] in [enhance_startup], [tags] in [LocalEnricher.run]. No
    stage tests any other field, so none of its values counts as missing. *)
Definition missing (field : string) (v : json) : bool :=
  if String.eqb field "category" then Py.in_strs v ["Error"; "No Data"]
  else if String.eqb field "summary" then
    Py.in_strs v ["No information available"; "Failed to process with AI";
                  "No information available for this startup."]
    || Py.is_none v
  else if String.eqb field "linkedin_url" then negb (Py.truthy v)
  else if String.eqb field "tags" then negb (Py.truthy v)
  else false.

(** What a stage step may do to the field [k] of a record: leave it as it
    was, write over a value that is missing, or, when [writes_summary]
    holds of the record, write [summary] or [confidence]. *)
Definition allowed_change (writes_summary : bool) (startup startup' : record)
    (k : string) : Prop :=
  startup' !! k = startup !! k
  \/ missing k (Py.get startup k) = true
  \/ ((k = "summary" \/ k = "confidence") /\ writes_summary = true).

(** The twenty labels and the four sentinels of the data model. *)
Definition category_values : list string :=
  StartupEnricher.categories ++ ["No Data"; "Error"; "Unknown"; "Other"].

End SentinelPolicy.

(** ** Records and collaborators for the examples *)

Module Sample.

Definition acme_about : about_map :=
  {[ "Acme" := Some "Acme builds autonomous robots and drones for farms in India." ]}.

(** A record whose category is a sentinel and whose summary is not. *)
Definition acme_error : record :=
  list_to_map
    [ ("name", JStr "Acme"); ("category", JStr "Error");
      ("summary", JStr "Acme builds robots."); ("confidence", JStr "High");
      ("linkedin_url", JStr "https://www.linkedin.com/company/acme") ].

(** A record with nothing produced yet. *)
Definition acme_no_data : record :=
  list_to_map
    [ ("name", JStr "Acme"); ("category", JStr "No Data");
      ("summary", JStr "No information available"); ("confidence", JStr "Low");
      ("tags", JArr []) ].

(** A service that answers every prompt with one summary. *)
Definition summarizing (p : Gemini.prompt) : Gemini.api_outcome :=
  Gemini.ApiText "Acme makes farm robots.".

(** A service that is down. *)
Definition unavailable (p : Gemini.prompt) : Gemini.api_outcome :=
  Gemini.ApiRaises "503 UNAVAILABLE".

(** A parser that accepts nothing. *)
Definition no_json (text : string) : Gemini.parse_result :=
  Gemini.ParseError "Expecting value".

Definition no_linkedin (name website : json) : option string := None.

(** Collaborators of the fetch stage that find a site for every name. *)
Definition site_of (name : string) : option string := Some ("https://" +:+ name).
Definition about_of (website : string) : option string := Some (website +:+ "/about").
Definition content_of (url : string) : option string := Some ("About " +:+ url).

End Sample.

(** ** The shape of a cleaned text *)

Module TextShape.

(** Every whitespace character of [s] is a space that follows no
    whitespace; [after_space] says that the character before [s] is
    whitespace, so that [spaced true s] also says that [s] does not start
    with whitespace. *)
Fixpoint spaced (after_space : bool) (s : string) : bool :=
  match s with
  | EmptyString => true
  | String c s' =>
      if PyStr.is_space c
      then Ascii.eqb c " " && negb after_space && spaced true s'
      else spaced false s'
  end.

End TextShape.

(** ** fetch_about_pages.py: the text of a page *)

Module PageContent.

Section Fetch.

(** [requests.get(url, ...)]: the status code and the body, [None] when it
    raises. *)
Variable http_get : string -> option (Z * string).

(** [BeautifulSoup(...)], the removal of the script, style, nav, header and
    footer elements, and [soup.get_text(separator=' ', strip=True)]; [None]
    when it raises. *)
Variable get_text : string -> option string.

(** [if len(text) > 2000: text = text[:2000] + "..."] *)
Definition bound_text (text : string) : string :=
  if 2000 <? PyStr.len text then PyStr.take 2000 text +:+ "..." else text.

(** [fetch_page_content] *)
Definition fetch_page_content (url : string) : option string :=
  if PyStr.is_empty url then None
  else
    match http_get url with
    | None => None
    | Some (status_code, body) =>
        if negb (status_code =? 200)%Z then None
        else
          match get_text body with
          | None => None
          | Some text =>
              Some (bound_text (PyStr.strip (LocalEnricher.collapse_spaces false text)))
          end
    end.

End Fetch.

End PageContent.

(** ** enhance_missing_data.py: the link found on the website *)

Module LinkedinLink.

(** The body of the loop over the links of the page, for one [href] that
    holds [linkedin.com/company/]. *)
Definition clean_link (href : string) : string :=
  let linkedin_url :=
    hd EmptyString (PyStr.split_char "#" (hd EmptyString (PyStr.split_char "?" href))) in
  if PyStr.startswith "http" linkedin_url then linkedin_url
  else if PyStr.startswith "/" linkedin_url then "https://www.linkedin.com" +:+ linkedin_url
  else "https://" +:+ linkedin_url.

(** The loop of strategy 1 of [search_linkedin] over the [href] of the
    links: it returns at the first that holds [linkedin.com/company/]. *)
Fixpoint first_company_link (hrefs : list string) : option string :=
  match hrefs with
  | [] => None
  | href :: rest =>
      if PyStr.contains "linkedin.com/company/" href then Some (clean_link href)
      else first_company_link rest
  end.

End LinkedinLink.

(* ===================================================================== *)
(** * Part II. Properties                                                 *)
(* ===================================================================== *)

Example lower_ex : PyStr.lower "Cookie POLICY" = "cookie policy".
Proof. reflexivity. Qed.

Example strip_ex : PyStr.strip "  a b  " = "a b".
Proof. reflexivity. Qed.

Example split_char_ex :
  PyStr.split_char "&" "AI/ML Infrastructure & Tools" = ["AI/ML Infrastructure "; " Tools"].
Proof. reflexivity. Qed.

Example split_sentences_ex :
  LocalEnricher.split_sentences "Hi there!  We build. Bye? " = ["Hi there!"; "We build."; "Bye?"; ""].
Proof. reflexivity. Qed.

Example clean_text_ex :
  LocalEnricher.clean_text (Some "  About US -: We   build
 robots. ") = "We build robots.".
Proof. reflexivity. Qed.

Example extract_summary_acme :
  LocalEnricher.extract_summary
    (Some "Acme AI builds predictive maintenance software for factories. Cookie policy applies.")
  = Some "Acme AI builds predictive maintenance software for factories.".
Proof. vm_compute. reflexivity. Qed.

Example categorize_acme :
  LocalEnricher.categorize_by_keywords
    "Acme AI builds predictive maintenance software for factories. Cookie policy applies."
  = "AI/ML Infrastructure & Tools".
Proof. vm_compute. reflexivity. Qed.

(** ** Python strings: lengths, prefixes and occurrences *)

Section PyStrFacts.

Import PyStr.

Lemma len_app (a b : string) : len (a +:+ b) = len a + len b.
Proof. induction a as [|c a IH]; simpl; [reflexivity | unfold len in *; simpl; lia]. Qed.

Lemma len_take (n : nat) (s : string) : len (take n s) = Nat.min n (len s).
Proof.
  revert n; induction s as [|c s IH]; intros [|n]; simpl; try reflexivity.
  unfold len in *; simpl. rewrite IH. reflexivity.
Qed.

Lemma lower_app (a b : string) : lower (a +:+ b) = lower a +:+ lower b.
Proof. induction a as [|c a IH]; simpl; [reflexivity | now rewrite IH]. Qed.

Lemma lower_take (n : nat) (s : string) : lower (take n s) = take n (lower s).
Proof.
  revert n; induction s as [|c s IH]; intros [|n]; simpl; try reflexivity.
  now rewrite IH.
Qed.

Lemma is_empty_true (s : string) : is_empty s = true <-> s = EmptyString.
Proof. destruct s; simpl; split; congruence. Qed.

Lemma is_empty_false (s : string) : is_empty s = false <-> s <> EmptyString.
Proof. destruct s; simpl; split; congruence. Qed.

(** The character [x] does not occur in [p]. *)
Local Abbreviation absent x p := (contains (String x EmptyString) p = false).

Lemma absent_cons (x c : ascii) (p : string) :
  absent x (String c p) -> Ascii.eqb c x = false /\ absent x p.
Proof.
  simpl. rewrite Ascii.eqb_sym.
  destruct (Ascii.eqb c x); simpl; [discriminate | auto].
Qed.

(** A match that starts in [a] and does not hold the separator [x] ends
    in [a]. *)
Lemma startswith_before_sep (p a b : string) (x : ascii) :
  absent x p -> startswith p (a +:+ String x b) = true -> startswith p a = true.
Proof.
  revert a; induction p as [|c p IH]; intros a Hx H.
  - now destruct a.
  - apply absent_cons in Hx as [Hc Hp].
    destruct a as [|d a]; simpl in *.
    + now rewrite Hc in H.
    + destruct (Ascii.eqb c d); [now apply IH | discriminate].
Qed.

Lemma contains_nonempty (p s : string) : contains p s = false -> p <> EmptyString.
Proof. intros H ->. destruct s; discriminate. Qed.

Lemma contains_sep (p a b : string) (x : ascii) :
  absent x p -> contains p a = false -> contains p b = false ->
  contains p (a +:+ String x b) = false.
Proof.
  intros Hx Ha Hb. induction a as [|d a IH].
  - simpl. rewrite Hb, orb_false_r.
    destruct p as [|c p]; [now apply contains_nonempty in Hb |].
    apply absent_cons in Hx as [Hc _]. cbn [startswith]. now rewrite Hc.
  - simpl in Ha. apply orb_false_iff in Ha as [Hs Ha].
    change (contains p (String d (a +:+ String x b)) = false).
    cbn [contains]. rewrite (IH Ha), orb_false_r.
    destruct (startswith p (String d (a +:+ String x b))) eqn:E; [|reflexivity].
    apply (startswith_before_sep p (String d a) b x Hx) in E. congruence.
Qed.

Lemma startswith_take (p s : string) (n : nat) :
  startswith p (take n s) = true -> startswith p s = true.
Proof.
  revert s n; induction p as [|c p IH]; intros s n H.
  - now destruct s.
  - destruct s as [|d s], n as [|n]; simpl in *; try discriminate.
    destruct (Ascii.eqb c d); [now apply (IH s n) | discriminate].
Qed.

Lemma contains_take (p s : string) (n : nat) :
  contains p s = false -> contains p (take n s) = false.
Proof.
  revert n; induction s as [|d s IH]; intros n H.
  - now destruct n.
  - destruct n as [|n].
    + simpl. destruct p; [now apply contains_nonempty in H | reflexivity].
    + cbn [contains] in H. apply orb_false_iff in H as [Hs H].
      cbn [take contains]. rewrite (IH n H), orb_false_r.
      destruct (startswith p (String d (take n s))) eqn:E; [|reflexivity].
      apply (startswith_take p (String d s) (S n)) in E. congruence.
Qed.

(** A pattern that holds no space is not found in a join on spaces of parts
    that do not hold it. *)
Lemma contains_join_lower (p : string) (parts : list string) :
  absent " "%char p -> p <> EmptyString ->
  Forall (fun s => contains p (lower s) = false) parts ->
  contains p (lower (join " " parts)) = false.
Proof.
  intros Hx Hp. induction 1 as [|s parts Hs Hall IH].
  - destruct p; [congruence | reflexivity].
  - destruct parts as [|s' parts]; [exact Hs |].
    change (join " " (s :: s' :: parts)) with (s +:+ String " " (join " " (s' :: parts))).
    rewrite lower_app. cbn [lower].
    change (lower_char " ") with " "%char.
    now apply contains_sep.
Qed.

End PyStrFacts.

(** ** The local summarizer *)

Section ExtractSummary.

Import PyStr LocalEnricher.

Lemma truncate_len (summary : string) : len (truncate summary) <= 403.
Proof.
  unfold truncate. destruct (400 <? len summary) eqn:E.
  - rewrite len_app, len_take. change (len "...") with 3. lia.
  - apply Nat.ltb_ge in E. lia.
Qed.

Lemma truncate_clean (p summary : string) :
  contains (String "." EmptyString) p = false -> contains p ".." = false ->
  contains p (lower summary) = false ->
  contains p (lower (truncate summary)) = false.
Proof.
  intros Hdot Hp H. unfold truncate. destruct (400 <? len summary); [|exact H].
  rewrite lower_app, lower_take.
  change (lower "...") with (String "."%char "..").
  apply contains_sep; auto using contains_take.
Qed.

Lemma qualifies_clean (sent : string) :
  qualifies sent = true ->
  5 <= len sent /\ contains "cookie" (lower sent) = false
  /\ contains "copyright" (lower sent) = false.
Proof.
  unfold qualifies. rewrite negb_true_iff, !orb_false_iff, Nat.ltb_ge. tauto.
Qed.

(** The loop appends to what it has a prefix of the qualifying sentences,
    in their order. *)
Lemma collect_prefix (sentences acc : list string) (count : nat) :
  exists kept,
    collect sentences acc count = acc ++ kept
    /\ kept `prefix_of` filter (fun s => qualifies s = true) sentences.
Proof.
  revert acc count. induction sentences as [|sent rest IH]; intros acc count.
  - exists []. split; [now rewrite app_nil_r | reflexivity].
  - cbn [collect]. rewrite filter_cons. destruct (qualifies sent) eqn:Q.
    + rewrite decide_True by reflexivity.
      destruct (350 <? count + len sent).
      * exists [sent]. split; [reflexivity | now exists (filter (fun s => qualifies s = true) rest)].
      * destruct (IH (acc ++ [sent]) (count + len sent)) as (kept & -> & Hk).
        exists (sent :: kept). split; [now rewrite <- app_assoc | now apply prefix_cons].
    + rewrite decide_False by congruence. apply IH.
Qed.

(** It ends with nothing only when it started with nothing and no sentence
    qualifies. *)
Lemma collect_nil (sentences acc : list string) (count : nat) :
  collect sentences acc count = [] <->
  acc = [] /\ Forall (fun s => qualifies s = false) sentences.
Proof.
  revert acc count. induction sentences as [|sent rest IH]; intros acc count.
  - simpl. split; [intros ->; auto | tauto].
  - cbn [collect]. destruct (qualifies sent) eqn:Q.
    + split.
      * intros H. assert (acc ++ [sent] = []) as Habs.
        { destruct (350 <? count + len sent); [exact H | now apply IH in H]. }
        now destruct acc.
      * intros [_ H]. inversion H; congruence.
    + rewrite IH. split; intros [-> H]; split; auto.
      now inversion H.
Qed.

End ExtractSummary.

(** C7. For every text, [extract_summary] answers [None] exactly when the
    text is absent, shorter than 20 characters, or has no qualifying
    sentence; any summary it answers has at most 403 characters, is the
    join on spaces, cut at 400 characters with an ellipsis, of a prefix of
    the qualifying sentences in their order, and holds neither [cookie] nor
    [copyright] in any case of letters. *)
Theorem extract_summary_bounded_and_clean (text : option string) :
  (LocalEnricher.extract_summary text = None <->
     text = None
     \/ exists t, text = Some t
          /\ (PyStr.len t < 20
              \/ Forall (fun s => LocalEnricher.qualifies s = false)
                        (LocalEnricher.split_sentences t)))
  /\ (forall summary, LocalEnricher.extract_summary text = Some summary ->
        PyStr.len summary <= 403
        /\ PyStr.contains "cookie" (PyStr.lower summary) = false
        /\ PyStr.contains "copyright" (PyStr.lower summary) = false
        /\ exists t kept,
             text = Some t /\ 20 <= PyStr.len t /\ kept <> []
             /\ kept `prefix_of` filter (fun s => LocalEnricher.qualifies s = true)
                                        (LocalEnricher.split_sentences t)
             /\ summary = LocalEnricher.truncate (PyStr.join " " kept)).
Proof.
  destruct text as [t|]; cbn [LocalEnricher.extract_summary].
  2: { split; [tauto | discriminate]. }
  assert (PyStr.is_empty t || (PyStr.len t <? 20) = true <-> PyStr.len t < 20) as Hshort.
  { rewrite orb_true_iff, Nat.ltb_lt, is_empty_true. split; [|auto].
    intros [-> | H]; [cbn; lia | exact H]. }
  destruct (PyStr.is_empty t || (PyStr.len t <? 20)) eqn:E.
  - apply proj1 in Hshort. specialize (Hshort eq_refl). split; [|discriminate].
    split; [|reflexivity]. intros _. right. exists t. auto.
  - assert (20 <= PyStr.len t) as Hlen.
    { destruct (Nat.lt_ge_cases (PyStr.len t) 20) as [H|H]; [|exact H].
      apply Hshort in H. discriminate. }
    destruct (collect_prefix (LocalEnricher.split_sentences t) [] 0) as (kept & Hc & Hk).
    pose proof (collect_nil (LocalEnricher.split_sentences t) [] 0) as Hnil.
    change ([] ++ kept) with kept in Hc. rewrite Hc in *. destruct kept as [|s kept].
    + split; [|discriminate]. split; [|reflexivity]. intros _. right. exists t.
      split; [reflexivity|]. right. now apply Hnil.
    + split.
      * split; [discriminate|]. intros [H | (t' & [= <-] & [H | H])]; [discriminate | lia |].
        assert (s :: kept = []) by (apply Hnil; auto). discriminate.
      * intros summary H.
        assert (summary = LocalEnricher.truncate (PyStr.join " " (s :: kept))) as ->
          by congruence.
        clear H.
        assert (Forall (fun x => LocalEnricher.qualifies x = true) (s :: kept)) as Hq.
        { apply Forall_forall. intros x Hx. destruct Hk as [k Hk].
          assert (x ∈ filter (fun s => LocalEnricher.qualifies s = true)
                             (LocalEnricher.split_sentences t)) as Hin.
          { rewrite Hk. apply elem_of_app. now left. }
          now apply list_elem_of_filter in Hin as [? _]. }
        split; [apply truncate_len|]. split; [|split].
        -- apply truncate_clean; [reflexivity | reflexivity |].
           apply contains_join_lower; [reflexivity | discriminate |].
           eapply Forall_impl; [exact Hq|]. intros x Hx. now apply qualifies_clean in Hx.
        -- apply truncate_clean; [reflexivity | reflexivity |].
           apply contains_join_lower; [reflexivity | discriminate |].
           eapply Forall_impl; [exact Hq|]. intros x Hx. now apply qualifies_clean in Hx.
        -- exists t, (s :: kept). auto.
Qed.

(** While the accumulated length stays within 350 characters the loop keeps
    every qualifying sentence, however many there are. *)
Lemma collect_all_within_350 (sentences acc : list string) (count : nat) :
  count + list_sum (map PyStr.len (filter (fun s => LocalEnricher.qualifies s = true) sentences)) <= 350 ->
  LocalEnricher.collect sentences acc count
  = acc ++ filter (fun s => LocalEnricher.qualifies s = true) sentences.
Proof.
  revert acc count. induction sentences as [|sent rest IH]; intros acc count H.
  - now rewrite app_nil_r.
  - cbn [LocalEnricher.collect]. rewrite filter_cons in *.
    destruct (LocalEnricher.qualifies sent) eqn:Q.
    + rewrite decide_True in * by reflexivity.
      change (count + (PyStr.len sent + list_sum (map PyStr.len (filter (fun s => LocalEnricher.qualifies s = true) rest))) <= 350) in H.
      destruct (350 <? count + PyStr.len sent) eqn:E.
      * apply Nat.ltb_lt in E. lia.
      * rewrite IH by lia. now rewrite <- app_assoc.
    + rewrite decide_False in * by congruence. now apply IH.
Qed.

(** C5. The loop of [extract_summary] has no bound on the number of
    sentences: on a text of four short qualifying sentences, whose first
    three total 34 characters, it keeps all four. *)
Theorem extract_summary_keeps_a_fourth_sentence :
  let text := "Alpha one. Bravo two. Charlie three. Delta four." in
  let sentences := LocalEnricher.split_sentences text in
  sentences = ["Alpha one."; "Bravo two."; "Charlie three."; "Delta four."]
  /\ Forall (fun s => LocalEnricher.qualifies s = true) sentences
  /\ list_sum (map PyStr.len (take 3 sentences)) = 34
  /\ LocalEnricher.collect sentences [] 0 = sentences
  /\ LocalEnricher.extract_summary (Some text) = Some text.
Proof.
  cbv zeta.
  assert (LocalEnricher.split_sentences "Alpha one. Bravo two. Charlie three. Delta four."
          = ["Alpha one."; "Bravo two."; "Charlie three."; "Delta four."]) as -> by reflexivity.
  split; [reflexivity|]. split; [repeat constructor|].
  split; [reflexivity|]. split; reflexivity.
Qed.

(** ** The local categorizer *)

Section FirstMaximum.

Import LocalEnricher.

(** The scan of [max], run over what the filter lets through. *)
Lemma max_from_filter (rest before between : list (string * nat)) (best : string * nat) :
  0 < best.2 ->
  Forall (fun x => x.2 < best.2) before ->
  Forall (fun x => x.2 <= best.2) between ->
  exists n,
    first_max (before ++ best :: between ++ rest) (max_from best (filter (fun cs => 0 < cs.2) rest)) n
    /\ 0 < n.
Proof.
  revert before between best.
  induction rest as [|cs rest IH]; intros before between best Hpos Hb Hm.
  - exists best.2. split; [|exact Hpos]. exists before, between.
    rewrite app_nil_r. destruct best. auto.
  - rewrite filter_cons. destruct (decide (0 < cs.2)) as [Hcs|Hcs].
    + cbn [max_from]. destruct (best.2 <? cs.2) eqn:E.
      * apply Nat.ltb_lt in E.
        destruct (IH (before ++ best :: between) [] cs Hcs) as (n & Hn & Hn0).
        -- apply Forall_app. split; [|constructor; [exact E|]].
           ++ eapply Forall_impl; [exact Hb|]. cbn. intros; lia.
           ++ eapply Forall_impl; [exact Hm|]. cbn. intros; lia.
        -- constructor.
        -- exists n. split; [|exact Hn0].
           cbn [app] in Hn. now rewrite <- app_assoc in Hn.
      * apply Nat.ltb_ge in E.
        destruct (IH before (between ++ [cs]) best Hpos Hb) as (n & Hn & Hn0).
        -- apply Forall_app. split; [exact Hm | now constructor].
        -- exists n. split; [|exact Hn0]. now rewrite <- app_assoc in Hn.
    + destruct (IH before (between ++ [cs]) best Hpos Hb) as (n & Hn & Hn0).
      * apply Forall_app. split; [exact Hm | constructor; [lia | constructor]].
      * exists n. split; [|exact Hn0]. now rewrite <- app_assoc in Hn.
Qed.

(** What [max] answers on the filtered scores, from the first key on. *)
Lemma scan_scores (l : list (string * nat)) :
  match filter (fun cs => 0 < cs.2) l with
  | [] => Forall (fun x => x.2 = 0) l
  | first :: rest => exists n, first_max l (max_from first rest) n /\ 0 < n
  end.
Proof.
  induction l as [|cs l IH].
  - constructor.
  - rewrite filter_cons. destruct (decide (0 < cs.2)) as [Hcs|Hcs].
    + destruct (max_from_filter l [] [] cs Hcs) as (n & Hn & Hn0); [constructor .. |].
      exists n. auto.
    + destruct (filter (fun cs => 0 < cs.2) l) as [|first rest].
      * constructor; [lia | exact IH].
      * destruct IH as (n & (before & after & -> & Hb & Ha) & Hn0).
        exists n. split; [|exact Hn0]. exists (cs :: before), after.
        split; [reflexivity|]. split; [constructor; [lia | exact Hb] | exact Ha].
Qed.

(** The place of the first maximum is unique. *)
Lemma first_max_unique (l : list (string * nat)) (c c' : string) (n n' : nat) :
  first_max l c n -> first_max l c' n' -> c = c' /\ n = n'.
Proof.
  intros (b & a & -> & Hb & Ha) (b' & a' & E & Hb' & Ha').
  destruct (Nat.lt_total (length b) (length b')) as [H | [H | H]].
  - exfalso.
    assert (b' !! length b = Some (c, n)) as Hin.
    { rewrite <- (lookup_app_l _ ((c', n') :: a')) by exact H.
      rewrite <- E. now rewrite list_lookup_middle. }
    assert ((b ++ (c, n) :: a) !! length b' = Some (c', n')) as Hin'.
    { rewrite E. now rewrite list_lookup_middle. }
    rewrite lookup_app_r in Hin' by lia.
    destruct (length b' - length b) as [|k] eqn:Ek; [lia|]. cbn in Hin'.
    apply list_elem_of_lookup_2 in Hin, Hin'.
    rewrite Forall_forall in Hb', Ha.
    apply Hb' in Hin. apply Ha in Hin'. cbn in *. lia.
  - apply app_inj_1 in E as [_ E]; [|exact H]. now inversion E.
  - exfalso.
    assert (b !! length b' = Some (c', n')) as Hin.
    { rewrite <- (lookup_app_l _ ((c, n) :: a)) by exact H.
      rewrite E. now rewrite list_lookup_middle. }
    assert ((b' ++ (c', n') :: a') !! length b = Some (c, n)) as Hin'.
    { rewrite <- E. now rewrite list_lookup_middle. }
    rewrite lookup_app_r in Hin' by lia.
    destruct (length b - length b') as [|k] eqn:Ek; [lia|]. cbn in Hin'.
    apply list_elem_of_lookup_2 in Hin, Hin'.
    rewrite Forall_forall in Hb, Ha'.
    apply Hb in Hin. apply Ha' in Hin'. cbn in *. lia.
Qed.

End FirstMaximum.

Section Categorize.

Import LocalEnricher.

(** The score of every category, in the order of the mapping. *)
Local Abbreviation scored mapping text_lower :=
  (map (fun ck : string * list string => (ck.1, score ck.2 text_lower)) mapping).

Lemma categorize_with_first_max (mapping : list (string * list string)) (text : string) :
  text <> EmptyString ->
  (Forall (fun x => x.2 = 0) (scored mapping (PyStr.lower text))
   /\ categorize_with mapping text = "Other")
  \/ (exists n, first_max (scored mapping (PyStr.lower text)) (categorize_with mapping text) n
                /\ 0 < n).
Proof.
  intros Ht. unfold categorize_with, scores_of.
  apply is_empty_false in Ht. rewrite Ht.
  pose proof (scan_scores (scored mapping (PyStr.lower text))) as H.
  destruct (filter _ _) as [|first rest]; [left | right]; auto.
Qed.

(** On the mapping of the source, whose keywords are never empty, the test
    on the empty text changes nothing. *)
Lemma categorize_by_keywords_scores (text : string) :
  categorize_by_keywords text
  = match scores_of category_keywords (PyStr.lower text) with
    | [] => "Other"
    | first :: rest => max_from first rest
    end.
Proof. destruct text; reflexivity. Qed.

Lemma categorize_by_keywords_first_max (text : string) :
  (Forall (fun x => x.2 = 0) (scored category_keywords (PyStr.lower text))
   /\ categorize_by_keywords text = "Other")
  \/ (exists n, first_max (scored category_keywords (PyStr.lower text))
                          (categorize_by_keywords text) n
                /\ 0 < n).
Proof.
  destruct text as [|c text].
  - left. split; [|reflexivity]. cbn [PyStr.lower].
    apply Forall_forall. intros x Hx. apply list_elem_of_In in Hx.
    cbn in Hx. repeat (destruct Hx as [<- | Hx]; [reflexivity|]). destruct Hx.
  - apply categorize_with_first_max. discriminate.
Qed.

End Categorize.

(** C6. [categorize_by_keywords] scores every category of the mapping on
    the text in lower case. When every score is 0 it answers [Other];
    otherwise it answers the category whose score is the greatest, and of
    several such the one the mapping declares first. In particular, when two
    categories score 1 and every other scores 0, it answers the one of the
    two that is declared first. *)
Theorem categorize_by_keywords_earliest_maximum (text : string) :
  let sc := fun kws => LocalEnricher.score kws (PyStr.lower text) in
  ((Forall (fun ck => sc ck.2 = 0) LocalEnricher.category_keywords
    /\ LocalEnricher.categorize_by_keywords text = "Other")
   \/ (exists before c kws after,
         LocalEnricher.category_keywords = before ++ (c, kws) :: after
         /\ LocalEnricher.categorize_by_keywords text = c
         /\ 0 < sc kws
         /\ Forall (fun ck => sc ck.2 < sc kws) before
         /\ Forall (fun ck => sc ck.2 <= sc kws) after))
  /\ (forall before c1 k1 between c2 k2 after,
        LocalEnricher.category_keywords
        = before ++ (c1, k1) :: between ++ (c2, k2) :: after ->
        sc k1 = 1 -> sc k2 = 1 ->
        Forall (fun ck => sc ck.2 = 0) (before ++ between ++ after) ->
        LocalEnricher.categorize_by_keywords text = c1).
Proof.
  intros sc.
  pose proof (categorize_by_keywords_first_max text) as H.
  set (f := fun ck : string * list string => (ck.1, sc ck.2)) in *.
  split.
  - destruct H as [[Hz Ho] | (n & (b & a & E & Hb & Ha) & Hn)].
    + left. split; [|exact Ho]. now apply Forall_fmap in Hz.
    + right. apply fmap_app_inv in E as (b' & m' & Eb & Em & E).
      symmetry in Em. apply fmap_cons_inv in Em as ([c kws] & a' & Eck & Ea & Em).
      injection Eck as Ec En. subst b a m' n.
      exists b', c, kws, a'. apply Forall_fmap in Hb, Ha. auto.
  - intros before c1 k1 between c2 k2 after E H1 H2 Hz.
    apply Forall_app in Hz as [Hzb Hz]. apply Forall_app in Hz as [Hzm Hza].
    assert (LocalEnricher.first_max (map f LocalEnricher.category_keywords) c1 1) as Hfirst.
    { exists (map f before), (map f (between ++ (c2, k2) :: after)).
      split; [|split].
      - rewrite E, map_app. cbn [map]. change (f (c1, k1)) with (c1, sc k1). now rewrite H1.
      - apply Forall_fmap. eapply Forall_impl; [exact Hzb|]. cbn. intros ? ->. lia.
      - apply Forall_fmap, Forall_app. split; [|constructor].
        + eapply Forall_impl; [exact Hzm|]. cbn. intros ? ->. lia.
        + change (sc k2 <= 1). lia.
        + eapply Forall_impl; [exact Hza|]. cbn. intros ? ->. lia. }
    destruct H as [[Hz _] | (n & Hmax & _)].
    + exfalso. rewrite E in Hz. apply Forall_fmap, Forall_app in Hz as [_ Hz].
      inversion Hz as [|? ? Hk1 _]. change (sc k1 = 0) in Hk1. lia.
    + symmetry. eapply first_max_unique; eassumption.
Qed.

(** The tie of the specification, on a text: [bank] is a keyword of the
    second category and [clinic] of the first. *)
Example categorize_tie :
  LocalEnricher.categorize_by_keywords "Our bank and clinic" = "Healthcare & Biotech".
Proof. vm_compute. reflexivity. Qed.

(** ** The local fallback on a record *)

Section EnrichRecord.

Import LocalEnricher.

Lemma fill_summary_other (cleaned k : string) (startup : record) :
  k <> "summary" -> k <> "confidence" ->
  fill_summary cleaned startup !! k = startup !! k.
Proof.
  intros Hs Hc. unfold fill_summary.
  destruct (extract_summary (Some cleaned)) as [e|]; [destruct (PyStr.is_empty e)|];
    now rewrite ?lookup_insert_ne by congruence.
Qed.

(** What step 1 writes: the extracted summary with its confidence, or the
    placeholder alone. *)
Lemma fill_summary_writes (cleaned : string) (startup : record) :
  (exists extracted,
     extract_summary (Some cleaned) = Some extracted
     /\ fill_summary cleaned startup !! "summary" = Some (JStr extracted)
     /\ fill_summary cleaned startup !! "confidence" = Some (JStr "Low (Extracted)"))
  \/ (fill_summary cleaned startup !! "summary" = Some (JStr "Information not available.")
      /\ fill_summary cleaned startup !! "confidence" = startup !! "confidence").
Proof.
  unfold fill_summary.
  destruct (extract_summary (Some cleaned)) as [e|]; [destruct (PyStr.is_empty e)|].
  - right. now rewrite lookup_insert_eq, lookup_insert_ne.
  - left. exists e. rewrite lookup_insert_eq, lookup_insert_ne, lookup_insert_eq by done. auto.
  - right. now rewrite lookup_insert_eq, lookup_insert_ne.
Qed.

Lemma fill_category_other (cleaned k : string) (startup : record) :
  k <> "category" -> k <> "tags" ->
  fill_category cleaned startup !! k = startup !! k.
Proof.
  intros Hc Ht. unfold fill_category. destruct (PyStr.is_empty cleaned).
  - now rewrite lookup_insert_ne by congruence.
  - destruct (Py.truthy _); now rewrite ?lookup_insert_ne by congruence.
Qed.

Lemma get_insert_ne (startup : record) (k k' : string) (v : json) :
  k <> k' -> Py.get (<[k := v]> startup) k' = Py.get startup k'.
Proof. intros H. unfold Py.get. now rewrite lookup_insert_ne. Qed.

Lemma fill_category_category (cleaned : string) (startup : record) :
  fill_category cleaned startup !! "category"
  = Some (JStr (if PyStr.is_empty cleaned then "Uncategorized"
                else categorize_by_keywords cleaned)).
Proof.
  unfold fill_category. destruct (PyStr.is_empty cleaned).
  - now rewrite lookup_insert_eq.
  - destruct (Py.truthy _); now rewrite ?lookup_insert_ne, lookup_insert_eq by done.
Qed.

Lemma fill_category_tags (cleaned : string) (startup : record) :
  fill_category cleaned startup !! "tags"
  = if PyStr.is_empty cleaned || Py.truthy (Py.get startup "tags")
    then startup !! "tags"
    else Some (JArr [JStr (category_tag (categorize_by_keywords cleaned))]).
Proof.
  unfold fill_category. destruct (PyStr.is_empty cleaned); cbn [orb].
  - now rewrite lookup_insert_ne.
  - rewrite get_insert_ne by done. destruct (Py.truthy _).
    + now rewrite lookup_insert_ne.
    + now rewrite lookup_insert_eq.
Qed.

(** The two ways the loop body ends without raising. *)
Lemma enrich_record_inv (about : about_map) (startup startup' : record) :
  enrich_record about startup = Some startup' ->
  (needs_summary startup = false /\ needs_category startup = false /\ startup' = startup)
  \/ exists cleaned,
       cleaned_content_of about startup = Some cleaned
       /\ startup' =
          let startup1 := if needs_summary startup then fill_summary cleaned startup
                          else startup in
          if needs_category startup then fill_category cleaned startup1 else startup1.
Proof.
  unfold enrich_record, cleaned_content_of.
  destruct (needs_summary startup || needs_category startup) eqn:E.
  - destruct (startup !! "name") as [name|]; [|discriminate]. cbn.
    destruct (Py.about_get about name) as [content|]; [|discriminate]. cbn.
    intros [= <-]. right. exists (clean_text content). auto.
  - apply orb_false_iff in E as [? ?]. intros [= <-]. auto.
Qed.

Lemma enrich_record_defined (about : about_map) (startup : record) (cleaned : string) :
  cleaned_content_of about startup = Some cleaned ->
  enrich_record about startup
  = Some (if needs_summary startup || needs_category startup then
            let startup1 := if needs_summary startup then fill_summary cleaned startup
                            else startup in
            if needs_category startup then fill_category cleaned startup1 else startup1
          else startup).
Proof.
  unfold enrich_record, cleaned_content_of.
  destruct (startup !! "name") as [name|]; [|discriminate]. cbn [mbind option_bind].
  destruct (Py.about_get about name) as [content|]; [|discriminate]. cbn [mbind option_bind].
  intros [= <-]. now destruct (needs_summary startup || needs_category startup).
Qed.

(** The text before the first occurrence of a character. *)
Lemma split_char_head (c : ascii) (s : string) :
  exists head,
    hd EmptyString (PyStr.split_char c s) = head
    /\ PyStr.contains (String c EmptyString) head = false
    /\ (s = head \/ exists rest, s = head +:+ String c rest).
Proof.
  induction s as [|a s (head & Hh & Hc & Hs)].
  - exists EmptyString. auto.
  - cbn [PyStr.split_char]. destruct (Ascii.eqb a c) eqn:E.
    + apply Ascii.eqb_eq in E as ->. exists EmptyString. eauto.
    + exists (String a head). split; [|split].
      * destruct (PyStr.split_char c s); [now subst | cbn in *; now subst].
      * cbn. rewrite Ascii.eqb_sym, E. cbn in Hc. exact Hc.
      * destruct Hs as [-> | (rest & ->)]; [now left | right; now exists rest].
Qed.

End EnrichRecord.

(** C10. When the loop body fills the category of a record from keyword
    matching, the cleaned content being non-empty, and the record has no
    tags, or tags that are empty or otherwise falsy, it writes as [tags]
    the one-element list of the label's text before its first [&], stripped
    of whitespace at both ends. A record whose tags are truthy keeps them,
    whatever else the loop body writes. *)
Theorem fallback_category_tags (about : about_map) (startup : record) :
  (forall cleaned,
     LocalEnricher.needs_category startup = true ->
     LocalEnricher.cleaned_content_of about startup = Some cleaned ->
     cleaned <> EmptyString ->
     Py.truthy (Py.get startup "tags") = false ->
     exists startup' new_cat before,
       LocalEnricher.enrich_record about startup = Some startup'
       /\ new_cat = LocalEnricher.categorize_by_keywords cleaned
       /\ startup' !! "category" = Some (JStr new_cat)
       /\ startup' !! "tags" = Some (JArr [JStr (PyStr.strip before)])
       /\ PyStr.contains "&" before = false
       /\ (new_cat = before \/ exists rest, new_cat = before +:+ "&" +:+ rest))
  /\ (forall startup',
        LocalEnricher.enrich_record about startup = Some startup' ->
        Py.truthy (Py.get startup "tags") = true ->
        startup' !! "tags" = startup !! "tags").
Proof.
  split.
  - intros cleaned Hcat Hcl Hne Htags.
    destruct (split_char_head "&" (LocalEnricher.categorize_by_keywords cleaned))
      as (before & Hhd & Hamp & Hsplit).
    eexists _, _, before. split; [exact (enrich_record_defined _ _ _ Hcl)|].
    rewrite Hcat, orb_true_r. cbn zeta.
    apply is_empty_false in Hne.
    assert (forall r, Py.truthy (Py.get r "tags") = false ->
              LocalEnricher.fill_category cleaned r !! "tags"
              = Some (JArr [JStr (PyStr.strip before)])) as Htag.
    { intros r Hr. rewrite fill_category_tags, Hne, Hr. cbn [orb].
      unfold LocalEnricher.category_tag. now rewrite Hhd. }
    split; [reflexivity|]. rewrite fill_category_category, Hne.
    split; [reflexivity|]. split; [|auto].
    destruct (LocalEnricher.needs_summary startup); [|now apply Htag].
    apply Htag. unfold Py.get. now rewrite fill_summary_other.
  - intros startup' H Htags.
    apply enrich_record_inv in H as [(_ & _ & ->) | (cleaned & _ & ->)]; [reflexivity|].
    cbn zeta.
    assert (forall r, r !! "tags" = startup !! "tags" ->
              LocalEnricher.fill_category cleaned r !! "tags" = startup !! "tags") as Htag.
    { intros r Hr. rewrite fill_category_tags. unfold Py.get. rewrite Hr.
      fold (Py.get startup "tags"). rewrite Htags, orb_true_r. reflexivity. }
    destruct (LocalEnricher.needs_summary startup), (LocalEnricher.needs_category startup);
      rewrite ?Htag, ?fill_summary_other; try done.
    now apply fill_summary_other.
Qed.

Section LocalRun.

Import LocalEnricher.

(** [run] is the loop body, record by record. *)
Lemma run_pointwise (about : about_map) (results results' : list record) :
  run about results = Some results' ->
  Forall2 (fun startup startup' => enrich_record about startup = Some startup')
          results results'.
Proof.
  revert results'. induction results as [|startup rest IH]; intros results'; cbn [run].
  - intros [= <-]. constructor.
  - destruct (enrich_record about startup) as [startup'|] eqn:E; [|discriminate].
    destruct (run about rest) as [rest'|]; [|discriminate].
    intros [= <-]. constructor; auto.
Qed.

(** Whatever the scan of [max] answers is a key of the mapping. *)
Lemma max_from_in (best : string * nat) (rest : list (string * nat)) :
  max_from best rest ∈ map fst (best :: rest).
Proof.
  revert best. induction rest as [|cs rest IH]; intros best; cbn [max_from].
  - cbn. apply list_elem_of_here.
  - destruct (best.2 <? cs.2).
    + cbn [map]. apply list_elem_of_further, IH.
    + specialize (IH best). cbn [map] in *.
      apply elem_of_cons in IH as [-> | IH]; [apply list_elem_of_here|].
      now do 2 apply list_elem_of_further.
Qed.

Lemma categorize_with_in (mapping : list (string * list string)) (text : string) :
  categorize_with mapping text = "Other"
  \/ categorize_with mapping text ∈ map fst mapping.
Proof.
  unfold categorize_with. destruct (PyStr.is_empty text); [now left|].
  destruct (scores_of mapping (PyStr.lower text)) as [|first rest] eqn:E; [now left|].
  right. pose proof (max_from_in first rest) as H. rewrite <- E in H.
  unfold scores_of in H.
  apply list_elem_of_fmap in H as (cs & -> & H).
  apply list_elem_of_filter in H as [_ H].
  apply list_elem_of_fmap in H as (ck & -> & H).
  apply list_elem_of_fmap. now exists ck.
Qed.

(** Every label of the keyword mapping is a label of the taxonomy. *)
Lemma category_keywords_in_taxonomy :
  Forall (fun c => c ∈ StartupEnricher.categories) (map fst category_keywords).
Proof.
  apply Forall_forall. intros c H. apply list_elem_of_In in H. apply list_elem_of_In.
  cbn in H |- *. tauto.
Qed.

End LocalRun.

(** C8, as the code has it. For a record that needs a category, the loop
    body of [LocalEnricher.run] writes [Uncategorized] when the cleaned
    content is empty, and otherwise [Other] or a label of the keyword
    mapping, each of which is one of the twenty labels of the taxonomy. *)
Theorem fallback_category_values (about : about_map) (startup startup' : record) :
  LocalEnricher.needs_category startup = true ->
  LocalEnricher.enrich_record about startup = Some startup' ->
  exists cleaned c,
    LocalEnricher.cleaned_content_of about startup = Some cleaned
    /\ startup' !! "category" = Some (JStr c)
    /\ (cleaned = EmptyString -> c = "Uncategorized")
    /\ (cleaned <> EmptyString ->
        c ∈ StartupEnricher.categories
        /\ (c = "Other" \/ c ∈ map fst LocalEnricher.category_keywords)).
Proof.
  intros Hcat H.
  apply enrich_record_inv in H as [(_ & Hno & _) | (cleaned & Hcl & ->)]; [congruence|].
  rewrite Hcat. cbn zeta. exists cleaned. eexists. split; [exact Hcl|].
  split; [apply fill_category_category|]. split.
  - now intros ->.
  - intros Hne. apply is_empty_false in Hne. rewrite Hne.
    destruct (categorize_with_in LocalEnricher.category_keywords cleaned) as [H | H];
      fold (LocalEnricher.categorize_by_keywords cleaned) in H.
    + rewrite H. split; [|now left].
      apply list_elem_of_In. cbn. tauto.
    + split; [|now right].
      pose proof category_keywords_in_taxonomy as Htax.
      rewrite Forall_forall in Htax. now apply Htax.
Qed.

(** C8 fails as stated: for a record whose category is [Error] and whose
    name has no about content, the loop body writes [Uncategorized], which
    is neither a label of the taxonomy nor one of the four sentinels. *)
Lemma fallback_writes_uncategorized :
  LocalEnricher.needs_category Sample.acme_error = true
  /\ (LocalEnricher.enrich_record ∅ Sample.acme_error ≫= (.!! "category"))
     = Some (JStr "Uncategorized")
  /\ "Uncategorized" ∉ SentinelPolicy.category_values.
Proof.
  split; [reflexivity|]. split; [vm_compute; reflexivity|].
  intros H. apply list_elem_of_In in H. cbn in H.
  repeat (destruct H as [H | H]; [discriminate|]). exact H.
Qed.

Lemma fallback_category_values_witness :
  exists cleaned c,
    LocalEnricher.cleaned_content_of Sample.acme_about Sample.acme_error = Some cleaned
    /\ (<["tags" := JArr [JStr "Robotics"]]>
          (<["category" := JStr "Robotics & Automation"]> Sample.acme_error))
         !! "category" = Some (JStr c)
    /\ (cleaned = EmptyString -> c = "Uncategorized")
    /\ (cleaned <> EmptyString ->
        c ∈ StartupEnricher.categories
        /\ (c = "Other" \/ c ∈ map fst LocalEnricher.category_keywords)).
Proof.
  apply (fallback_category_values Sample.acme_about Sample.acme_error).
  - reflexivity.
  - vm_compute. reflexivity.
Defined.

(** ** The AI summary producer on a record *)

Section EnhanceStartup.

Import StartupEnhancer.

Variable generate_content : Gemini.prompt -> Gemini.api_outcome.
Variable search_linkedin : json -> json -> option string.
Variable about_content_map : about_map.

Local Abbreviation enhance_summary :=
  (StartupEnhancer.enhance_summary generate_content about_content_map).
Local Abbreviation enhance_linkedin :=
  (StartupEnhancer.enhance_linkedin search_linkedin).
Local Abbreviation enhance_startup :=
  (StartupEnhancer.enhance_startup generate_content search_linkedin about_content_map).

(** The first half writes nothing, or a summary with its confidence. *)
Lemma enhance_summary_inv (name : json) (startup enhanced : record) :
  enhance_summary name startup = Some enhanced ->
  enhanced = startup
  \/ (needs_summary startup = true
      /\ exists summary,
           enhanced = <["confidence" := JStr "Medium"]> (<["summary" := JStr summary]> startup)).
Proof.
  unfold StartupEnhancer.enhance_summary. destruct (needs_summary startup).
  - destruct (Py.about_get about_content_map name) as [content|]; [|discriminate].
    cbn [mbind option_bind]. intros [= <-].
    destruct (Py.truthy_opt content); [|now left].
    destruct (generate_summary_with_ai generate_content name content) as [summary|];
      [|now left].
    destruct (PyStr.is_empty summary); [now left | right; eauto].
  - intros [= <-]. now left.
Qed.

Lemma enhance_linkedin_other (name : json) (startup enhanced : record) (k : string) :
  k <> "linkedin_url" -> enhance_linkedin name startup enhanced !! k = enhanced !! k.
Proof.
  intros Hk. unfold StartupEnhancer.enhance_linkedin.
  destruct (Py.truthy _); [reflexivity|].
  destruct (search_linkedin _ _) as [url|]; [destruct (PyStr.is_empty url)|];
    now rewrite lookup_insert_ne by congruence.
Qed.

Lemma enhance_linkedin_url (name : json) (startup enhanced : record) :
  enhance_linkedin name startup enhanced !! "linkedin_url" = enhanced !! "linkedin_url"
  \/ Py.truthy (Py.get startup "linkedin_url") = false.
Proof.
  unfold StartupEnhancer.enhance_linkedin. destruct (Py.truthy _); auto.
Qed.

Lemma enhance_startup_inv (startup enhanced : record) :
  enhance_startup startup = Some enhanced ->
  exists name enhanced1,
    startup !! "name" = Some name
    /\ enhance_summary name startup = Some enhanced1
    /\ enhanced = enhance_linkedin name startup enhanced1.
Proof.
  unfold StartupEnhancer.enhance_startup.
  destruct (startup !! "name") as [name|]; [|discriminate]. cbn [mbind option_bind].
  destruct (enhance_summary name startup) as [enhanced1|] eqn:E; [|discriminate].
  cbn [mbind option_bind]. intros [= <-]. eauto.
Qed.

(** Field by field: what [enhance_startup] may have written. *)
Lemma enhance_startup_fields (startup enhanced : record) (k : string) :
  enhance_startup startup = Some enhanced ->
  enhanced !! k = startup !! k
  \/ (k = "linkedin_url" /\ Py.truthy (Py.get startup "linkedin_url") = false)
  \/ ((k = "summary" \/ k = "confidence")
      /\ needs_summary startup = true
      /\ (exists summary, enhanced !! "summary" = Some (JStr summary))
      /\ enhanced !! "confidence" = Some (JStr "Medium")).
Proof.
  intros H. apply enhance_startup_inv in H as (name & e1 & _ & H1 & ->).
  destruct (decide (k = "linkedin_url")) as [-> | Hk].
  - destruct (enhance_linkedin_url name startup e1) as [Hl | Hl]; [|auto].
    rewrite Hl. apply enhance_summary_inv in H1 as [-> | (_ & s & ->)]; [now left|].
    left. now rewrite !lookup_insert_ne.
  - rewrite !enhance_linkedin_other by done.
    apply enhance_summary_inv in H1 as [-> | (Hn & s & ->)]; [now left|].
    destruct (decide (k = "confidence")) as [-> | Hc];
      [|destruct (decide (k = "summary")) as [-> | Hs]].
    + right. right. rewrite lookup_insert_eq, lookup_insert_ne, lookup_insert_eq by done.
      eauto 10.
    + right. right. rewrite lookup_insert_eq, lookup_insert_ne, lookup_insert_eq by done.
      eauto 10.
    + left. now rewrite !lookup_insert_ne.
Qed.

End EnhanceStartup.

(** C9 fails as stated: for a record whose category is [Error], whose
    summary is present and whose confidence is [High], the local fallback
    writes the category and leaves the confidence as it was. *)
Lemma fallback_category_write_keeps_confidence :
  Sample.acme_error !! "category" = Some (JStr "Error")
  /\ Sample.acme_error !! "confidence" = Some (JStr "High")
  /\ (LocalEnricher.enrich_record Sample.acme_about Sample.acme_error ≫= (.!! "category"))
     = Some (JStr "Robotics & Automation")
  /\ (LocalEnricher.enrich_record Sample.acme_about Sample.acme_error ≫= (.!! "confidence"))
     = Some (JStr "High").
Proof. repeat split; vm_compute; reflexivity. Qed.

(** C9, as the code has it. [enhance_startup] sets the confidence to
    [Medium] whenever it changes the summary, and never changes the
    category. The loop body of [LocalEnricher.run] sets the confidence to
    [Low (Extracted)] when it writes an extracted summary; when it writes
    the placeholder summary, or the category alone, it leaves the
    confidence as it was. *)
Theorem confidence_follows_summary_writes :
  (forall generate_content search_linkedin about_content_map startup enhanced,
     StartupEnhancer.enhance_startup generate_content search_linkedin about_content_map startup
     = Some enhanced ->
     enhanced !! "category" = startup !! "category"
     /\ (enhanced !! "summary" <> startup !! "summary" ->
         enhanced !! "confidence" = Some (JStr "Medium")))
  /\ (forall about startup startup',
        LocalEnricher.enrich_record about startup = Some startup' ->
        (exists cleaned extracted,
           LocalEnricher.needs_summary startup = true
           /\ LocalEnricher.cleaned_content_of about startup = Some cleaned
           /\ LocalEnricher.extract_summary (Some cleaned) = Some extracted
           /\ startup' !! "summary" = Some (JStr extracted)
           /\ startup' !! "confidence" = Some (JStr "Low (Extracted)"))
        \/ (startup' !! "confidence" = startup !! "confidence"
            /\ (startup' !! "summary" = startup !! "summary"
                \/ startup' !! "summary" = Some (JStr "Information not available.")))).
Proof.
  split.
  - intros gc sl am startup enhanced H. split.
    + destruct (enhance_startup_fields gc sl am startup enhanced "category" H)
        as [Hk | [[Hk _] | [[Hk | Hk] _]]]; [exact Hk | discriminate ..].
    + intros Hne.
      destruct (enhance_startup_fields gc sl am startup enhanced "summary" H)
        as [Hk | [[Hk _] | (_ & _ & _ & Hc)]]; [contradiction | discriminate | exact Hc].
  - intros about startup startup' H.
    apply enrich_record_inv in H as [(_ & _ & ->) | (cleaned & Hcl & ->)]; [right; auto|].
    cbn zeta.
    assert (forall r : record,
              (if LocalEnricher.needs_category startup
               then LocalEnricher.fill_category cleaned r else r) !! "summary" = r !! "summary"
              /\ (if LocalEnricher.needs_category startup
                  then LocalEnricher.fill_category cleaned r else r) !! "confidence"
                 = r !! "confidence") as Hcat.
    { intros r. destruct (LocalEnricher.needs_category startup); [|auto].
      now rewrite !fill_category_other. }
    destruct (LocalEnricher.needs_summary startup) eqn:Hs.
    + destruct (Hcat (LocalEnricher.fill_summary cleaned startup)) as [-> ->].
      destruct (fill_summary_writes cleaned startup) as [(e & He & H1 & H2) | [H1 H2]].
      * left. exists cleaned, e. auto.
      * right. auto.
    + destruct (Hcat startup) as [-> ->]. right. auto.
Qed.

Lemma confidence_follows_summary_writes_witness :
  (<["confidence" := JStr "Medium"]>
     (<["summary" := JStr "Acme makes farm robots."]> Sample.acme_error))
    !! "confidence" = Some (JStr "Medium").
Proof.
  apply (proj1 confidence_follows_summary_writes
           Sample.summarizing Sample.no_linkedin Sample.acme_about Sample.acme_error).
  - vm_compute. reflexivity.
  - vm_compute. discriminate.
Defined.

(** C2 fails as stated: [enhance_startup] writes over a summary that the
    Sentinel Policy holds to be present, when the category of the record is
    [Error]. *)
Lemma enhance_overwrites_present_summary :
  Sample.acme_error !! "summary" = Some (JStr "Acme builds robots.")
  /\ SentinelPolicy.missing "summary" (JStr "Acme builds robots.") = false
  /\ (StartupEnhancer.enhance_startup Sample.summarizing Sample.no_linkedin
        Sample.acme_about Sample.acme_error ≫= (.!! "summary"))
     = Some (JStr "Acme makes farm robots.").
Proof. repeat split; vm_compute; reflexivity. Qed.

(** C2, as the code has it. After [enhance_startup], and after
    [LocalEnricher.run] on every record, each field is as it was, or its
    value was missing by the Sentinel Policy, or it is [summary] or
    [confidence] and the stage's own test [needs_summary] held of the
    record: for [enhance_startup] that test also holds when only the
    category is missing. *)
Theorem stages_write_missing_or_summary :
  (forall generate_content search_linkedin about_content_map startup enhanced k,
     StartupEnhancer.enhance_startup generate_content search_linkedin about_content_map startup
     = Some enhanced ->
     SentinelPolicy.allowed_change (StartupEnhancer.needs_summary startup) startup enhanced k)
  /\ (forall about results results',
        LocalEnricher.run about results = Some results' ->
        Forall2 (fun startup startup' =>
                   forall k, SentinelPolicy.allowed_change
                               (LocalEnricher.needs_summary startup) startup startup' k)
                results results').
Proof.
  split.
  - intros gc sl am startup enhanced k H. unfold SentinelPolicy.allowed_change.
    destruct (enhance_startup_fields gc sl am startup enhanced k H)
      as [Hk | [[-> Hk] | (Hk & Hn & _)]]; [now left | | now right; right].
    right. left. cbn. now rewrite Hk.
  - intros about results results' H. apply run_pointwise in H.
    eapply Forall2_impl; [exact H|]. clear. intros startup startup' H k.
    unfold SentinelPolicy.allowed_change.
    apply enrich_record_inv in H as [(_ & _ & ->) | (cleaned & _ & ->)]; [now left|].
    cbn zeta.
    destruct (decide (k = "category")) as [-> | Hcat];
      [|destruct (decide (k = "tags")) as [-> | Htags]].
    + destruct (LocalEnricher.needs_category startup) eqn:Hn.
      * right. left. exact Hn.
      * left. destruct (LocalEnricher.needs_summary startup); [|reflexivity].
        now apply fill_summary_other.
    + destruct (Py.truthy (Py.get startup "tags")) eqn:Ht.
      * left.
        assert (forall r : record, r !! "tags" = startup !! "tags" ->
                  (if LocalEnricher.needs_category startup
                   then LocalEnricher.fill_category cleaned r else r) !! "tags"
                  = startup !! "tags") as Hkeep.
        { intros r Hr. destruct (LocalEnricher.needs_category startup); [|exact Hr].
          rewrite fill_category_tags. unfold Py.get. rewrite Hr.
          fold (Py.get startup "tags"). now rewrite Ht, orb_true_r. }
        apply Hkeep. destruct (LocalEnricher.needs_summary startup); [|reflexivity].
        now apply fill_summary_other.
      * right. left. cbn. now rewrite Ht.
    + assert (forall r : record,
                (if LocalEnricher.needs_category startup
                 then LocalEnricher.fill_category cleaned r else r) !! k = r !! k) as ->.
      { intros r. destruct (LocalEnricher.needs_category startup); [|reflexivity].
        now apply fill_category_other. }
      destruct (LocalEnricher.needs_summary startup) eqn:Hs; [|now left].
      destruct (decide (k = "summary")) as [-> | Hsum];
        [|destruct (decide (k = "confidence")) as [-> | Hconf]].
      * right. right. auto.
      * right. right. auto.
      * left. now apply fill_summary_other.
Qed.

Lemma stages_write_missing_or_summary_witness :
  SentinelPolicy.allowed_change
    (StartupEnhancer.needs_summary Sample.acme_error) Sample.acme_error
    (<["confidence" := JStr "Medium"]>
       (<["summary" := JStr "Acme makes farm robots."]> Sample.acme_error))
    "summary".
Proof.
  apply (proj1 stages_write_missing_or_summary
           Sample.summarizing Sample.no_linkedin Sample.acme_about).
  vm_compute. reflexivity.
Defined.

(** ** The AI enrichment adapter *)

(** C3. [enrich_with_ai] answers the [No Data] record, and calls the
    service not at all, when the about content is absent or empty. In every
    other case it calls the service once, with the name and the first 1800
    characters of the content, and answers the [Error] record when the call
    raises, when the answer has no text, and when the text, the fence
    removed, fails to parse; it answers the parsed value otherwise. The two
    records are the ones of the specification, and they differ. *)
Theorem enrich_with_ai_sentinels
    (generate_content : Gemini.prompt -> Gemini.api_outcome)
    (json_loads : string -> Gemini.parse_result)
    (startup_name : string) (about_content : option string) :
  let out := StartupEnricher.enrich_with_ai generate_content json_loads
               startup_name about_content in
  (Py.truthy_opt about_content = false ->
   out = (StartupEnricher.no_data_result, []))
  /\ (forall content,
        about_content = Some content -> content <> EmptyString ->
        let prompt := Gemini.mk_prompt (JStr startup_name) (PyStr.take 1800 content) in
        out.2 = [prompt]
        /\ match generate_content prompt with
           | Gemini.ApiRaises _ | Gemini.ApiNoText => out.1 = StartupEnricher.error_result
           | Gemini.ApiText text =>
               match json_loads (StartupEnricher.strip_fence (PyStr.strip text)) with
               | Gemini.ParseError _ => out.1 = StartupEnricher.error_result
               | Gemini.Parsed enrichment => out.1 = enrichment
               end
           end)
  /\ StartupEnricher.no_data_result
     = JObj [ ("category", JStr "No Data");
              ("summary", JStr "No information available for this startup.");
              ("key_offerings", JArr []); ("confidence", JStr "Low"); ("tags", JArr []) ]
  /\ StartupEnricher.error_result
     = JObj [ ("category", JStr "Error"); ("summary", JStr "Failed to process with AI");
              ("key_offerings", JArr []); ("confidence", JStr "Low"); ("tags", JArr []) ]
  /\ StartupEnricher.no_data_result <> StartupEnricher.error_result.
Proof.
  cbv zeta. unfold StartupEnricher.enrich_with_ai. split; [|split; [|split; [|split]]].
  - destruct about_content as [content|]; [|reflexivity].
    cbn [Py.truthy_opt]. rewrite negb_false_iff. now intros ->.
  - intros content -> Hne. apply is_empty_false in Hne. rewrite Hne. cbn [fst snd].
    split; [reflexivity|].
    destruct (generate_content _) as [message| |text]; try reflexivity.
    now destruct (json_loads _).
  - reflexivity.
  - reflexivity.
  - discriminate.
Qed.

Lemma enrich_with_ai_sentinels_witness :
  StartupEnricher.enrich_with_ai Sample.unavailable Sample.no_json "Acme" (Some EmptyString)
  = (StartupEnricher.no_data_result, []).
Proof.
  apply (proj1 (enrich_with_ai_sentinels Sample.unavailable Sample.no_json
                  "Acme" (Some EmptyString))).
  reflexivity.
Defined.

Example enrich_with_ai_service_down :
  StartupEnricher.enrich_with_ai Sample.unavailable Sample.no_json "Acme"
    (Some "Acme builds robots.")
  = (StartupEnricher.error_result, [Gemini.mk_prompt (JStr "Acme") "Acme builds robots."]).
Proof. reflexivity. Qed.

Example enrich_with_ai_unparsable :
  StartupEnricher.enrich_with_ai Sample.summarizing Sample.no_json "Acme"
    (Some "Acme builds robots.")
  = (StartupEnricher.error_result, [Gemini.mk_prompt (JStr "Acme") "Acme builds robots."]).
Proof. reflexivity. Qed.

(** ** The window of a run *)

(** C4. With no limit the work list is not cut: whatever the starting
    offset, [run] of every stage does what it does for the offset 0. On the
    two names of the specification's scenario, [all] with the offset 1
    fetches both, where a limit of 5 with the same offset fetches the
    second alone. *)
Theorem run_without_limit_ignores_start_index :
  (forall A start_index (work : list A),
     StageRunner.window None start_index work = work)
  /\ (forall search find fetch start_index startups prior,
        StartupAboutFetcher.run search find fetch None start_index startups prior
        = StartupAboutFetcher.run search find fetch None 0 startups prior)
  /\ (forall generate loads start_index startups prior,
        StartupCategorizer.run generate loads None start_index startups prior
        = StartupCategorizer.run generate loads None 0 startups prior)
  /\ (forall generate loads data halls start_index names prior,
        StartupEnricher.run generate loads data halls None start_index names prior
        = StartupEnricher.run generate loads data halls None 0 names prior)
  /\ (forall generate search about start_index results,
        StartupEnhancer.run generate search about None start_index results
        = StartupEnhancer.run generate search about None 0 results)
  /\ StageRunner.rs_calls
       (StartupAboutFetcher.run Sample.site_of Sample.about_of Sample.content_of
          None 1 ["Acme AI"; "Beta Health"] None).1
     = ["Acme AI"; "Beta Health"]
  /\ StageRunner.rs_calls
       (StartupAboutFetcher.run Sample.site_of Sample.about_of Sample.content_of
          (Some 5%Z) 1 ["Acme AI"; "Beta Health"] None).1
     = ["Beta Health"].
Proof. repeat split; reflexivity. Qed.

(** ** The loop of the stage runners *)

Section RunnerLoop.

Import StageRunner.

Context {Item Result : Type}.
Variable item_name : Item -> string.
Variable result_name : Result -> option json.
Variable process : Item -> option Result.

Local Abbreviation already_processed := (StageRunner.already_processed result_name).
Local Abbreviation stored_as := (StageRunner.stored_as result_name).
Local Abbreviation loop := (StageRunner.loop item_name result_name process).

(** The test of the loop answers [False] only when no stored record has
    the name. *)
Lemma already_processed_false (results : list Result) (name : string) :
  already_processed results name = Some false ->
  forall r, r ∈ results -> stored_as name r = false.
Proof.
  induction results as [|r0 results IH]; cbn [StageRunner.already_processed].
  - intros _ r Hr. now apply elem_of_nil in Hr.
  - destruct (result_name r0) as [v|] eqn:E; [|discriminate].
    destruct (Py.eq_str v name) eqn:Ev; [discriminate|].
    intros H r Hr. apply elem_of_cons in Hr as [-> | Hr]; [|now apply IH].
    unfold StageRunner.stored_as. now rewrite E.
Qed.

(** When every stored record has a name, the test is the search for it. *)
Lemma already_processed_named (results : list Result) (name : string) :
  Forall (fun r => is_Some (result_name r)) results ->
  already_processed results name = Some (existsb (stored_as name) results).
Proof.
  induction 1 as [|r0 results [v Hv] _ IH]; cbn [StageRunner.already_processed existsb].
  - reflexivity.
  - unfold StageRunner.stored_as at 1. rewrite Hv.
    destruct (Py.eq_str v name); [reflexivity | exact IH].
Qed.

(** The loop only appends: to the results, and to the calls the items it
    finds stored under no name. *)
Lemma loop_appends (work : list Item) (st : run_state) :
  exists appended called,
    rs_results (loop work st).1 = rs_results st ++ appended
    /\ rs_calls (loop work st).1 = rs_calls st ++ called
    /\ forall item, item ∈ called ->
         item ∈ work /\ forall r, r ∈ rs_results st -> stored_as (item_name item) r = false.
Proof.
  revert st. induction work as [|item rest IH]; intros st; cbn [StageRunner.loop].
  - exists [], []. rewrite !app_nil_r. repeat split; auto; now apply elem_of_nil in H.
  - destruct (already_processed (rs_results st) (item_name item)) as [[|]|] eqn:E.
    + destruct (IH st) as (appended & called & Hr & Hc & Hin).
      exists appended, called. repeat split; auto.
      * apply list_elem_of_further. now apply Hin.
      * now apply Hin.
    + assert (forall r, r ∈ rs_results st -> stored_as (item_name item) r = false) as Hitem
        by now apply already_processed_false.
      destruct (process item) as [result|].
      * destruct (IH (mk_state (rs_results st ++ [result]) (rs_calls st ++ [item])
                        (rs_saved st ++ [rs_results st ++ [result]])))
          as (appended & called & Hr & Hc & Hin).
        cbn [rs_results rs_calls] in Hr, Hc, Hin.
        exists (result :: appended), (item :: called).
        rewrite Hr, Hc, <- !app_assoc. repeat split; auto.
        -- apply elem_of_cons in H as [-> | H]; [apply list_elem_of_here|].
           apply list_elem_of_further. now apply Hin.
        -- intros r Hr'. apply elem_of_cons in H as [-> | H]; [now apply Hitem|].
           apply Hin; [exact H|]. apply elem_of_app. now left.
      * exists [], [item]. cbn [fst rs_results rs_calls]. rewrite app_nil_r.
        repeat split; auto.
        -- apply list_elem_of_singleton in H as ->. apply list_elem_of_here.
        -- apply list_elem_of_singleton in H as ->. exact Hitem.
    + exists [], []. cbn [fst]. rewrite !app_nil_r.
      repeat split; auto; now apply elem_of_nil in H.
Qed.

Lemma run_skips_stored :
  skips_stored item_name result_name (StageRunner.run item_name result_name process).
Proof.
  intros limit start_index work prior. cbv zeta. unfold StageRunner.run.
  destruct (loop_appends (window limit start_index work) (mk_state (default [] prior) [] []))
    as (appended & called & Hr & Hc & Hin).
  cbn [rs_results rs_calls app] in Hr, Hc, Hin.
  split; [eauto|]. rewrite Hc. split.
  - intros item H. now apply Hin.
  - intros item r Hr' Hs H. apply Hin in H as [_ H]. rewrite (H r Hr') in Hs. discriminate.
Qed.

(** From here on the producer stores its result under the name of the item,
    as the three stages do. *)
Hypothesis name_kept :
  forall item r, process item = Some r -> result_name r = Some (JStr (item_name item)).

Lemma stored_as_produced (item item' : Item) (r : Result) :
  process item = Some r ->
  stored_as (item_name item') r = String.eqb (item_name item) (item_name item').
Proof.
  intros H. unfold StageRunner.stored_as. now rewrite (name_kept _ _ H).
Qed.

Lemma produced_named (work : list Item) :
  Forall (fun r => is_Some (result_name r)) (omap process work).
Proof.
  apply Forall_forall. intros r Hr.
  apply list_elem_of_omap in Hr as (item & _ & H). rewrite (name_kept _ _ H). eauto.
Qed.

Lemma length_produced (work : list Item) :
  (forall item, item ∈ work -> is_Some (process item)) ->
  length (omap process work) = length work.
Proof.
  induction work as [|item rest IH]; intros H; [reflexivity|].
  destruct (H item) as [r Hr]; [apply list_elem_of_here|].
  cbn [omap list_omap]. rewrite Hr. cbn [length]. f_equal.
  apply IH. intros i Hi. apply H. now apply list_elem_of_further.
Qed.

(** The items that are stored already are passed over. *)
Lemma loop_passes_stored (skipped rest : list Item) (st : run_state) :
  Forall (fun r => is_Some (result_name r)) (rs_results st) ->
  (forall item, item ∈ skipped ->
     exists r, r ∈ rs_results st /\ stored_as (item_name item) r = true) ->
  loop (skipped ++ rest) st = loop rest st.
Proof.
  intros Hnamed. induction skipped as [|item skipped IH]; intros H; [reflexivity|].
  cbn [app StageRunner.loop]. rewrite already_processed_named by exact Hnamed.
  destruct (H item) as (r & Hr & Hs); [apply list_elem_of_here|].
  assert (existsb (stored_as (item_name item)) (rs_results st) = true) as ->.
  { apply existsb_exists. exists r. split; [now apply list_elem_of_In | exact Hs]. }
  apply IH. intros i Hi. apply H. now apply list_elem_of_further.
Qed.

(** The items that no stored record names, each named once, are processed
    in order, and the file is written after each. *)
Lemma loop_processes_new (work : list Item) (results : list Result) (calls : list Item)
    (saved : list (list Result)) :
  Forall (fun r => is_Some (result_name r)) results ->
  (forall item r, item ∈ work -> r ∈ results -> stored_as (item_name item) r = false) ->
  NoDup (item_name <$> work) ->
  (forall item, item ∈ work -> is_Some (process item)) ->
  loop work (mk_state results calls saved)
  = (mk_state (results ++ omap process work) (calls ++ work)
       (saved ++ ((fun j => results ++ omap process (take j work)) <$> seq 1 (length work))),
     Finished).
Proof.
  revert results calls saved.
  induction work as [|item rest IH]; intros results calls saved Hnamed Hnew Hnd Htotal.
  - cbn. now rewrite !app_nil_r.
  - cbn [StageRunner.loop rs_results rs_calls rs_saved].
    rewrite already_processed_named by exact Hnamed.
    assert (existsb (stored_as (item_name item)) results = false) as ->.
    { apply not_true_is_false. intros H. apply existsb_exists in H as (r & Hr & Hs).
      apply list_elem_of_In in Hr. rewrite Hnew in Hs; [discriminate | apply list_elem_of_here | exact Hr]. }
    destruct (Htotal item) as [result Hresult]; [apply list_elem_of_here|].
    rewrite Hresult. cbn [fmap list_fmap] in Hnd. apply NoDup_cons in Hnd as [Hfresh Hnd].
    rewrite IH; cycle 1.
    + apply Forall_app. split; [exact Hnamed|]. constructor; [|constructor].
      rewrite (name_kept _ _ Hresult). eauto.
    + intros i r Hi Hr. apply elem_of_app in Hr as [Hr | Hr].
      * apply Hnew; [now apply list_elem_of_further | exact Hr].
      * apply list_elem_of_singleton in Hr as ->.
        rewrite (stored_as_produced item i result Hresult).
        apply String.eqb_neq. intros Heq. apply Hfresh. rewrite Heq.
        now apply list_elem_of_fmap_2.
    + exact Hnd.
    + intros i Hi. apply Htotal. now apply list_elem_of_further.
    + f_equal. cbn [omap list_omap length seq fmap list_fmap take]. rewrite Hresult.
      rewrite <- !app_assoc. cbn [app]. f_equal. f_equal. f_equal.
      rewrite <- (fmap_S_seq 1), <- list_fmap_compose.
      apply list_fmap_ext. intros _ j _. cbn [compose take omap list_omap].
      rewrite Hresult. now rewrite <- app_assoc.
Qed.

Lemma run_resumes_after_crash :
  resumes_after_crash item_name process (StageRunner.run item_name result_name process).
Proof.
  intros start_index start_index' work k Hnd Htotal Hk. cbv zeta.
  unfold StageRunner.run. cbn [window from_option id].
  assert (forall j, forall item, item ∈ take j work -> is_Some (process item)) as Htake.
  { intros j item H. apply Htotal. exact (sublist_subseteq _ _ (sublist_take work j) item H). }
  assert (exists saved,
            loop work (mk_state (omap process (take k work)) [] [])
            = (mk_state (omap process work) (drop k work) saved, Finished)) as [saved ->].
  { replace (loop work (mk_state (omap process (take k work)) [] []))
      with (loop (take k work ++ drop k work) (mk_state (omap process (take k work)) [] []))
      by now rewrite take_drop.
    assert (NoDup (item_name <$> take k work ++ drop k work)) as Hnd'
      by now rewrite take_drop.
    rewrite fmap_app in Hnd'. apply NoDup_app in Hnd' as (_ & Hdisj & Hnd').
    rewrite loop_passes_stored; cycle 1.
    { apply produced_named. }
    { intros item Hitem. cbn [rs_results].
      destruct (Htake k item Hitem) as [r Hr]. exists r. split.
      - apply list_elem_of_omap. eauto.
      - rewrite (stored_as_produced item item r Hr). apply String.eqb_refl. }
    rewrite loop_processes_new; cycle 1.
    { apply produced_named. }
    { intros item r Hitem Hr. apply list_elem_of_omap in Hr as (item' & Hitem' & Hr).
      rewrite (stored_as_produced item' item r Hr). apply String.eqb_neq. intros Heq.
      apply (Hdisj (item_name item')); [now apply list_elem_of_fmap_2|].
      rewrite Heq. now apply list_elem_of_fmap_2. }
    { exact Hnd'. }
    { intros item H. apply Htotal.
      exact (sublist_subseteq _ _ (sublist_drop work k) item H). }
    eexists. rewrite <- omap_app, take_drop. reflexivity. }
  rewrite loop_processes_new; [|constructor | intros ? ? _ H; now apply elem_of_nil in H
                                | exact Hnd | exact Htotal].
  cbn [fst snd rs_results rs_calls rs_saved app].
  split; [reflexivity|]. split; [reflexivity|].
  split; [rewrite length_produced by apply Htake; now apply length_take_le|].
  split; [|auto].
  intros Hpos. rewrite list_lookup_fmap, lookup_seq_lt by lia. cbn.
  repeat f_equal. lia.
Qed.

End RunnerLoop.

(** ** The three stage runners *)

(** Each producer stores its result under the name of its item. *)
Lemma fetch_name_kept (search find fetch : string -> option string) (name : string) :
  pg_name (StartupAboutFetcher.process_startup search find fetch name) = name.
Proof.
  unfold StartupAboutFetcher.process_startup.
  destruct (search name) as [website|]; [|reflexivity].
  destruct (PyStr.is_empty website); [reflexivity|].
  destruct (fetch _) as [content|]; [|reflexivity].
  now destruct (PyStr.is_empty content).
Qed.

Lemma categorize_name_kept (generate : Gemini.prompt -> Gemini.api_outcome)
    (loads : string -> Gemini.parse_result) (startup_data : page)
    (r : StartupCategorizer.categorized) :
  StartupCategorizer.process_startup generate loads startup_data = Some r ->
  StartupCategorizer.result_name r = Some (JStr (pg_name startup_data)).
Proof.
  unfold StartupCategorizer.process_startup, StartupCategorizer.result_name.
  destruct (pg_status startup_data); try (now intros [= <-]).
  destruct (Gemini.subscript _ "primary_category"); [|discriminate].
  destruct (Gemini.subscript _ "confidence"); [|discriminate].
  now intros [= <-].
Qed.

Lemma enrich_name_kept (generate : Gemini.prompt -> Gemini.api_outcome)
    (loads : string -> Gemini.parse_result) (data : gmap string page)
    (halls : gmap string record) (name : string) (r : record) :
  StartupEnricher.enrich_startup generate loads data halls name = Some r ->
  StartupEnricher.result_name r = Some (JStr name).
Proof.
  unfold StartupEnricher.enrich_startup, StartupEnricher.result_name.
  destruct (pg_status <$> data !! name) as [[| | |]|];
    try (intros [= <-]; cbn [list_to_map foldr fst snd]; now rewrite lookup_insert_eq).
  destruct (Gemini.subscript _ "category"); [|discriminate]. cbn [mbind option_bind].
  destruct (Gemini.subscript _ "confidence"); [|discriminate]. cbn [mbind option_bind].
  destruct (Gemini.subscript _ "summary") as [summary|]; [|discriminate].
  cbn [mbind option_bind]. destruct (StartupEnricher.sliceable summary); [|discriminate].
  destruct (Gemini.subscript _ "key_offerings"); [|discriminate]. cbn [mbind option_bind].
  destruct (Gemini.subscript _ "tags"); [|discriminate]. cbn [mbind option_bind].
  intros [= <-]. cbn [list_to_map foldr fst snd]. now rewrite lookup_insert_eq.
Qed.

(** C1. Each of the three stages that load their prior output keeps the
    stored records, in their places, at the head of its results, and calls
    its producer on no item that a stored record names, whatever the limit
    and the offset. When the work list names each item once and the
    producer raises on none, a run with no limit that is cut after it
    saved [k] records leaves the records of the first [k] items in the
    file, and a fresh run with no limit on that file calls the producer on
    the other items alone, each once and in order, and ends with the
    results of a run that was never cut. *)
Theorem stage_runners_resume :
  (forall search find fetch,
     let run := StartupAboutFetcher.run search find fetch in
     StageRunner.skips_stored (fun name => name) StartupAboutFetcher.result_name run
     /\ StageRunner.resumes_after_crash (fun name => name)
          (fun name => Some (StartupAboutFetcher.process_startup search find fetch name)) run)
  /\ (forall generate loads,
        let run := StartupCategorizer.run generate loads in
        StageRunner.skips_stored pg_name StartupCategorizer.result_name run
        /\ StageRunner.resumes_after_crash pg_name
             (StartupCategorizer.process_startup generate loads) run)
  /\ (forall generate loads data halls,
        let run := StartupEnricher.run generate loads data halls in
        StageRunner.skips_stored (fun name => name) StartupEnricher.result_name run
        /\ StageRunner.resumes_after_crash (fun name => name)
             (StartupEnricher.enrich_startup generate loads data halls) run).
Proof.
  split; [|split].
  - intros search find fetch. cbv zeta. split.
    + apply run_skips_stored.
    + apply run_resumes_after_crash. intros name r [= <-].
      unfold StartupAboutFetcher.result_name. now rewrite fetch_name_kept.
  - intros generate loads. cbv zeta. split.
    + apply run_skips_stored.
    + apply run_resumes_after_crash. apply categorize_name_kept.
  - intros generate loads data halls. cbv zeta. split.
    + apply run_skips_stored.
    + apply run_resumes_after_crash. apply enrich_name_kept.
Qed.

Lemma stage_runners_resume_witness :
  let run := StartupAboutFetcher.run Sample.site_of Sample.about_of Sample.content_of in
  let work := ["Acme AI"; "Beta Health"] in
  let process := StartupAboutFetcher.process_startup
                   Sample.site_of Sample.about_of Sample.content_of in
  StageRunner.rs_saved (run None 0%Z work None).1 !! 0 = Some [process "Acme AI"]
  /\ (run None 0%Z work (Some [process "Acme AI"])).2 = StageRunner.Finished
  /\ StageRunner.rs_calls (run None 0%Z work (Some [process "Acme AI"])).1 = ["Beta Health"]
  /\ StageRunner.rs_results (run None 0%Z work (Some [process "Acme AI"])).1
     = [process "Acme AI"; process "Beta Health"].
Proof.
  cbv zeta.
  destruct (proj2 (proj1 stage_runners_resume Sample.site_of Sample.about_of Sample.content_of)
              0%Z 0%Z ["Acme AI"; "Beta Health"] 1)
    as (_ & _ & _ & Hsaved & Hend & Hcalls & Hresults).
  - cbn. apply NoDup_cons. split; [|apply NoDup_singleton].
    rewrite list_elem_of_singleton. discriminate.
  - intros item _. eauto.
  - cbn. lia.
  - split; [apply Hsaved; lia|]. split; [exact Hend|]. split; [exact Hcalls | exact Hresults].
Defined.

Example resume_skips_categorized_record :
  let stored := mk_page "Acme AI" None None None success in
  StageRunner.rs_calls
    (StartupAboutFetcher.run Sample.site_of Sample.about_of Sample.content_of
       None 0%Z ["Acme AI"; "Beta Health"] (Some [stored])).1
  = ["Beta Health"].
Proof. reflexivity. Qed.

(** ** The properties on concrete inputs *)

Lemma extract_summary_bounded_and_clean_witness :
  let summary := "Acme AI builds predictive maintenance software for factories." in
  PyStr.len summary <= 403
  /\ PyStr.contains "cookie" (PyStr.lower summary) = false
  /\ PyStr.contains "copyright" (PyStr.lower summary) = false
  /\ exists t kept,
       Some "Acme AI builds predictive maintenance software for factories. Cookie policy applies."
       = Some t
       /\ 20 <= PyStr.len t /\ kept <> []
       /\ kept `prefix_of` filter (fun s => LocalEnricher.qualifies s = true)
                                  (LocalEnricher.split_sentences t)
       /\ summary = LocalEnricher.truncate (PyStr.join " " kept).
Proof.
  apply (proj2 (extract_summary_bounded_and_clean
                  (Some "Acme AI builds predictive maintenance software for factories. Cookie policy applies."))).
  vm_compute. reflexivity.
Defined.

Lemma categorize_by_keywords_earliest_maximum_witness :
  LocalEnricher.categorize_by_keywords "Our bank and clinic" = "Healthcare & Biotech".
Proof.
  apply (proj2 (categorize_by_keywords_earliest_maximum "Our bank and clinic")
           [] "Healthcare & Biotech"
           ["health"; "medical"; "patient"; "diagnostic"; "clinic"; "hospital"; "pharma"; "biotech"]
           [] "Fintech & Banking"
           ["finance"; "bank"; "payment"; "fintech"; "loan"; "credit"; "wealth"; "insurtech"; "invest"]
           (drop 2 LocalEnricher.category_keywords)).
  - reflexivity.
  - vm_compute. reflexivity.
  - vm_compute. reflexivity.
  - cbn [app drop LocalEnricher.category_keywords].
    repeat (constructor; [vm_compute; reflexivity|]). constructor.
Defined.

Lemma fallback_category_tags_witness :
  exists startup' new_cat before,
    LocalEnricher.enrich_record Sample.acme_about Sample.acme_no_data = Some startup'
    /\ new_cat = LocalEnricher.categorize_by_keywords
                   "Acme builds autonomous robots and drones for farms in India."
    /\ startup' !! "category" = Some (JStr new_cat)
    /\ startup' !! "tags" = Some (JArr [JStr (PyStr.strip before)])
    /\ PyStr.contains "&" before = false
    /\ (new_cat = before \/ exists rest, new_cat = before +:+ "&" +:+ rest).
Proof.
  apply (proj1 (fallback_category_tags Sample.acme_about Sample.acme_no_data)).
  - reflexivity.
  - vm_compute. reflexivity.
  - discriminate.
  - reflexivity.
Defined.

Example fallback_on_acme :
  (LocalEnricher.enrich_record Sample.acme_about Sample.acme_no_data ≫= (.!! "tags"))
  = Some (JArr [JStr "Robotics"])
  /\ (LocalEnricher.enrich_record Sample.acme_about Sample.acme_no_data ≫= (.!! "summary"))
     = Some (JStr "Acme builds autonomous robots and drones for farms in India.")
  /\ (LocalEnricher.enrich_record Sample.acme_about Sample.acme_no_data ≫= (.!! "confidence"))
     = Some (JStr "Low (Extracted)").
Proof. repeat split; vm_compute; reflexivity. Qed.

(* ===================================================================== *)
(** * Part III. Further properties of the code                            *)
(* ===================================================================== *)

(** ** The stage runners: window, saves, a second run *)

Section RunnerMore.

Import StageRunner.

Context {Item Result : Type}.
Variable item_name : Item -> string.
Variable result_name : Result -> option json.
Variable process : Item -> option Result.

Local Abbreviation loop := (StageRunner.loop item_name result_name process).
Local Abbreviation stored_as := (StageRunner.stored_as result_name).

(** A slice from a non-negative start, of a positive length. *)
Lemma py_slice_take_drop {A : Type} (l : list A) (start n : Z) :
  (0 <= start)%Z -> (0 <= n)%Z ->
  py_slice l start (start + n) = take (Z.to_nat n) (drop (Z.to_nat start) l).
Proof.
  intros Hs Hn. unfold py_slice, clamp_index.
  destruct (start <? 0)%Z eqn:E1; [apply Z.ltb_lt in E1; lia|].
  destruct (start + n <? 0)%Z eqn:E2; [apply Z.ltb_lt in E2; lia|].
  destruct (Z.le_gt_cases (Z.of_nat (length l)) start) as [Hlen | Hlen].
  - rewrite Z.min_r by lia. rewrite !drop_ge by lia. now rewrite !take_nil.
  - rewrite (Z.min_l start) by lia.
    destruct (Z.le_gt_cases (start + n) (Z.of_nat (length l))) as [Hhi | Hhi].
    + rewrite Z.min_l by lia. f_equal. lia.
    + rewrite Z.min_r by lia.
      rewrite !take_ge; [reflexivity | rewrite length_drop; lia | rewrite length_drop; lia].
Qed.

(** The calls and the saves of the loop: the calls are items of the work
    list, in their order; every save holds the results so far. *)
Lemma loop_trace (work : list Item) (st : run_state) :
  exists appended called,
    rs_results (loop work st).1 = rs_results st ++ appended
    /\ rs_calls (loop work st).1 = rs_calls st ++ called
    /\ called `sublist_of` work
    /\ rs_saved (loop work st).1
       = rs_saved st ++ ((fun j => rs_results st ++ take j appended) <$> seq 1 (length appended))
    /\ ((loop work st).2 = Finished -> length called = length appended)
    /\ length appended <= length called.
Proof.
  revert st. induction work as [|item rest IH]; intros st; cbn [StageRunner.loop].
  - exists [], []. cbn. rewrite !app_nil_r. repeat split; auto using sublist_nil_l.
  - destruct (StageRunner.already_processed result_name (rs_results st) (item_name item))
      as [[|]|].
    + destruct (IH st) as (appended & called & Hr & Hc & Hsub & Hs & Hf & Hle).
      exists appended, called. repeat split; auto. now apply sublist_cons.
    + destruct (process item) as [result|].
      * destruct (IH (mk_state (rs_results st ++ [result]) (rs_calls st ++ [item])
                        (rs_saved st ++ [rs_results st ++ [result]])))
          as (appended & called & Hr & Hc & Hsub & Hs & Hf & Hle).
        cbn [rs_results rs_calls rs_saved] in Hr, Hc, Hs.
        exists (result :: appended), (item :: called).
        rewrite Hr, Hc, Hs, <- !app_assoc. cbn [length].
        split; [reflexivity|]. split; [reflexivity|]. split; [now apply sublist_skip|].
        split; [|split; [intros H; f_equal; now apply Hf | lia]].
        f_equal. cbn [seq fmap list_fmap take app]. f_equal.
        rewrite <- (fmap_S_seq 1), <- list_fmap_compose.
        apply list_fmap_ext. intros _ j _. cbn [compose take].
        now rewrite <- app_assoc.
      * exists [], [item]. cbn. rewrite !app_nil_r.
        repeat split; auto using sublist_skip, sublist_nil_l. discriminate.
    + exists [], []. cbn. rewrite !app_nil_r. repeat split; auto using sublist_nil_l.
Qed.

(** From here on the producer stores its result under the name of the
    item. *)
Hypothesis name_kept :
  forall item r, process item = Some r -> result_name r = Some (JStr (item_name item)).

(** When the loop runs to its end, every item of the work list is stored. *)
Lemma loop_finished_stored (work : list Item) (st st' : run_state) :
  Forall (fun r => is_Some (result_name r)) (rs_results st) ->
  loop work st = (st', Finished) ->
  Forall (fun r => is_Some (result_name r)) (rs_results st')
  /\ forall item, item ∈ work ->
       exists r, r ∈ rs_results st' /\ stored_as (item_name item) r = true.
Proof.
  revert st. induction work as [|item rest IH]; intros st Hnamed; cbn [StageRunner.loop].
  - intros [= <-]. split; [exact Hnamed|]. intros item H. now apply elem_of_nil in H.
  - rewrite (already_processed_named result_name) by exact Hnamed.
    destruct (existsb (stored_as (item_name item)) (rs_results st)) eqn:E.
    + intros H. destruct (IH st Hnamed H) as [Hn Hall]. split; [exact Hn|].
      intros i Hi. apply elem_of_cons in Hi as [-> | Hi]; [|now apply Hall].
      apply existsb_exists in E as (r & Hr & Hs). exists r. split; [|exact Hs].
      destruct (loop_trace rest st) as (appended & _ & Hres & _). rewrite H in Hres.
      cbn [fst] in Hres. rewrite Hres. apply elem_of_app. left. now apply list_elem_of_In.
    + destruct (process item) as [result|] eqn:Hp; [|discriminate].
      intros H.
      assert (Forall (fun r => is_Some (result_name r)) (rs_results st ++ [result])) as Hn'.
      { apply Forall_app. split; [exact Hnamed|]. constructor; [|constructor].
        rewrite (name_kept _ _ Hp). eauto. }
      destruct (IH (mk_state (rs_results st ++ [result]) (rs_calls st ++ [item])
                      (rs_saved st ++ [rs_results st ++ [result]])) Hn' H) as [Hn Hall].
      split; [exact Hn|].
      intros i Hi. apply elem_of_cons in Hi as [-> | Hi]; [|now apply Hall].
      exists result. split.
      * destruct (loop_trace rest (mk_state (rs_results st ++ [result]) (rs_calls st ++ [item])
                                    (rs_saved st ++ [rs_results st ++ [result]])))
          as (appended & _ & Hres & _).
        rewrite H in Hres. cbn [fst rs_results] in Hres. rewrite Hres, <- app_assoc.
        apply elem_of_app. right. apply list_elem_of_here.
      * unfold StageRunner.stored_as. rewrite (name_kept _ _ Hp). cbn. apply String.eqb_refl.
Qed.

(** A run that ended, run again on the file it left, calls nothing and
    leaves the results as they are. *)
Lemma run_again_nothing (limit : option Z) (start_index : Z) (work : list Item)
    (prior : option (list Result)) (st : run_state) :
  Forall (fun r => is_Some (result_name r)) (default [] prior) ->
  StageRunner.run item_name result_name process limit start_index work prior
  = (st, Finished) ->
  StageRunner.run item_name result_name process limit start_index work (Some (rs_results st))
  = (mk_state (rs_results st) [] [], Finished).
Proof.
  unfold StageRunner.run. intros Hnamed H.
  destruct (loop_finished_stored _ (mk_state (default [] prior) [] []) _ Hnamed H) as [Hn Hall].
  rewrite <- (app_nil_r (window limit start_index work)).
  rewrite (loop_passes_stored item_name result_name process); [reflexivity | exact Hn | exact Hall].
Qed.

End RunnerMore.

(** X1. With a positive limit and a non-negative offset, [run] calls the
    producer on items of [work[start_index : start_index + limit]] only, in
    their order, hence at most [limit] times. A limit of 0 is no limit:
    the work list is not cut. *)
Theorem run_calls_within_window :
  (forall Item Result (item_name : Item -> string) (result_name : Result -> option json)
          (process : Item -> option Result) (limit start_index : Z) (work : list Item)
          (prior : option (list Result)),
     (0 < limit)%Z -> (0 <= start_index)%Z ->
     let out := (StageRunner.run item_name result_name process
                   (Some limit) start_index work prior).1 in
     StageRunner.rs_calls out
       `sublist_of` take (Z.to_nat limit) (drop (Z.to_nat start_index) work)
     /\ length (StageRunner.rs_calls out) <= Z.to_nat limit)
  /\ (forall Item (start_index : Z) (work : list Item),
        StageRunner.window (Some 0%Z) start_index work = work).
Proof.
  split; [|reflexivity].
  intros Item Result item_name result_name process limit start_index work prior Hl Hs.
  cbv zeta. unfold StageRunner.run, StageRunner.window.
  destruct (limit =? 0)%Z eqn:E; [apply Z.eqb_eq in E; lia|]. cbn [negb].
  rewrite py_slice_take_drop by lia.
  destruct (loop_trace item_name result_name process
              (take (Z.to_nat limit) (drop (Z.to_nat start_index) work))
              (StageRunner.mk_state (default [] prior) [] []))
    as (appended & called & _ & Hc & Hsub & _).
  rewrite Hc. cbn [StageRunner.rs_calls app]. split; [exact Hsub|].
  apply sublist_length in Hsub. rewrite length_take in Hsub. lia.
Qed.

Lemma run_calls_within_window_witness :
  StageRunner.rs_calls
    (StartupAboutFetcher.run Sample.site_of Sample.about_of Sample.content_of
       (Some 1%Z) 1%Z ["Acme AI"; "Beta Health"; "Gamma Labs"] None).1
    `sublist_of` take (Z.to_nat 1) (drop (Z.to_nat 1) ["Acme AI"; "Beta Health"; "Gamma Labs"])
  /\ length (StageRunner.rs_calls
               (StartupAboutFetcher.run Sample.site_of Sample.about_of Sample.content_of
                  (Some 1%Z) 1%Z ["Acme AI"; "Beta Health"; "Gamma Labs"] None).1)
     <= Z.to_nat 1.
Proof.
  apply (proj1 run_calls_within_window string page (fun name => name)
           StartupAboutFetcher.result_name
           (fun name => Some (StartupAboutFetcher.process_startup
                                Sample.site_of Sample.about_of Sample.content_of name))
           1%Z 1%Z ["Acme AI"; "Beta Health"; "Gamma Labs"] None); lia.
Defined.

(** X2. Whatever the limit, the offset, the prior output and the producer,
    the results of [run] are the prior results followed by what the run
    appended, and [save_results] wrote the file once for each appended
    record: the j-th file written holds the prior results and the first j
    appended records, so the last one holds the final results. A run that
    ends without an exception appended one record for each call of the
    producer. *)
Theorem run_saves_each_result
    {Item Result : Type} (item_name : Item -> string) (result_name : Result -> option json)
    (process : Item -> option Result) (limit : option Z) (start_index : Z)
    (work : list Item) (prior : option (list Result)) :
  let out := StageRunner.run item_name result_name process limit start_index work prior in
  exists appended,
    StageRunner.rs_results out.1 = default [] prior ++ appended
    /\ StageRunner.rs_saved out.1
       = (fun j => default [] prior ++ take j appended) <$> seq 1 (length appended)
    /\ (appended <> [] -> last (StageRunner.rs_saved out.1) = Some (StageRunner.rs_results out.1))
    /\ length appended <= length (StageRunner.rs_calls out.1)
    /\ (out.2 = StageRunner.Finished ->
        length (StageRunner.rs_calls out.1) = length appended).
Proof.
  cbv zeta. unfold StageRunner.run.
  destruct (loop_trace item_name result_name process
              (StageRunner.window limit start_index work)
              (StageRunner.mk_state (default [] prior) [] []))
    as (appended & called & Hr & Hc & _ & Hs & Hf & Hle).
  cbn [StageRunner.rs_results StageRunner.rs_calls StageRunner.rs_saved app] in Hr, Hc, Hs.
  exists appended. rewrite Hr, Hs, Hc. repeat split; auto.
  intros Hne. destruct (length appended) as [|m] eqn:El.
  - destruct appended; [congruence | discriminate].
  - rewrite seq_S, fmap_app. cbn [fmap list_fmap]. rewrite last_snoc.
    cbn [Nat.add]. now rewrite take_ge by lia.
Qed.

(** X3. A run of a stage that ended without an exception, started again
    with the same arguments on the file it left, calls its producer on
    nothing and leaves the results as they are; for the enrich stage, whose
    records are dicts, when every prior record has a name. *)
Theorem stage_run_again_is_idle :
  (forall search find fetch limit start_index startups prior st,
     StartupAboutFetcher.run search find fetch limit start_index startups prior
     = (st, StageRunner.Finished) ->
     StartupAboutFetcher.run search find fetch limit start_index startups
       (Some (StageRunner.rs_results st))
     = (StageRunner.mk_state (StageRunner.rs_results st) [] [], StageRunner.Finished))
  /\ (forall generate loads limit start_index startups prior st,
        StartupCategorizer.run generate loads limit start_index startups prior
        = (st, StageRunner.Finished) ->
        StartupCategorizer.run generate loads limit start_index startups
          (Some (StageRunner.rs_results st))
        = (StageRunner.mk_state (StageRunner.rs_results st) [] [], StageRunner.Finished))
  /\ (forall generate loads data halls limit start_index names prior st,
        Forall (fun r : record => is_Some (r !! "name")) (default [] prior) ->
        StartupEnricher.run generate loads data halls limit start_index names prior
        = (st, StageRunner.Finished) ->
        StartupEnricher.run generate loads data halls limit start_index names
          (Some (StageRunner.rs_results st))
        = (StageRunner.mk_state (StageRunner.rs_results st) [] [], StageRunner.Finished)).
Proof.
  split; [|split].
  - intros search find fetch limit start_index startups prior st H.
    eapply run_again_nothing; [| |exact H].
    + intros name r [= <-]. unfold StartupAboutFetcher.result_name.
      now rewrite fetch_name_kept.
    + apply Forall_forall. intros r _. unfold StartupAboutFetcher.result_name. eauto.
  - intros generate loads limit start_index startups prior st H.
    eapply run_again_nothing; [| |exact H].
    + apply categorize_name_kept.
    + apply Forall_forall. intros r _. unfold StartupCategorizer.result_name. eauto.
  - intros generate loads data halls limit start_index names prior st Hnamed H.
    eapply run_again_nothing; [| |exact H].
    + apply enrich_name_kept.
    + exact Hnamed.
Qed.

Lemma stage_run_again_is_idle_witness :
  let run := StartupAboutFetcher.run Sample.site_of Sample.about_of Sample.content_of in
  let st := (run None 0%Z ["Acme AI"; "Beta Health"] None).1 in
  run None 0%Z ["Acme AI"; "Beta Health"] (Some (StageRunner.rs_results st))
  = (StageRunner.mk_state (StageRunner.rs_results st) [] [], StageRunner.Finished).
Proof.
  cbv zeta.
  apply (proj1 stage_run_again_is_idle Sample.site_of Sample.about_of Sample.content_of
           None 0%Z ["Acme AI"; "Beta Health"] None).
  reflexivity.
Defined.

(** ** The cleaned text *)

Section CleanText.

Import PyStr LocalEnricher TextShape.

Lemma spaced_weaken (b : bool) (s : string) : spaced b s = true -> spaced false s = true.
Proof.
  destruct s as [|c s]; [reflexivity|]. cbn [spaced].
  destruct (is_space c); [|auto]. destruct b; [|auto].
  rewrite andb_false_r. discriminate.
Qed.

Lemma collapse_spaces_spaced (b : bool) (s : string) :
  spaced b (collapse_spaces b s) = true.
Proof.
  revert b. induction s as [|c s IH]; intros b; [reflexivity|].
  cbn [collapse_spaces]. destruct (is_space c) eqn:E.
  - destruct b; [apply IH|]. cbn [spaced]. change (is_space " ") with true. cbn. apply IH.
  - cbn [spaced]. rewrite E. apply IH.
Qed.

Lemma spaced_lstrip (s : string) : spaced true s = true -> lstrip s = s.
Proof.
  destruct s as [|c s]; [reflexivity|]. cbn [spaced lstrip].
  destruct (is_space c); [|reflexivity]. rewrite andb_false_r. discriminate.
Qed.

Lemma lstrip_spaced (s : string) : spaced false s = true -> spaced true (lstrip s) = true.
Proof.
  destruct s as [|c s]; [reflexivity|]. cbn [spaced lstrip].
  destruct (is_space c) eqn:E.
  - intros H. apply andb_true_iff in H as [_ H]. now rewrite (spaced_lstrip s H).
  - intros H. cbn [spaced]. now rewrite E.
Qed.

Lemma rstrip_spaced (b : bool) (s : string) :
  spaced b s = true -> spaced b (rstrip s) = true.
Proof.
  revert b. induction s as [|c s IH]; intros b; [reflexivity|].
  cbn [spaced rstrip]. destruct (is_space c) eqn:E.
  - intros H. apply andb_true_iff in H as [Hc H]. apply IH in H.
    destruct (rstrip s) as [|d r]; [reflexivity|].
    cbn [spaced] in H |- *. now rewrite E, Hc, H.
  - intros H. apply IH in H.
    destruct (rstrip s) as [|d r]; cbn [spaced] in H |- *; now rewrite E.
Qed.

Lemma rstrip_idempotent (s : string) : rstrip (rstrip s) = rstrip s.
Proof.
  induction s as [|c s IH]; [reflexivity|]. cbn [rstrip].
  destruct (rstrip s) as [|d r] eqn:E.
  - destruct (is_space c) eqn:Ec; [reflexivity|]. cbn. now rewrite Ec.
  - cbn [rstrip]. cbn [rstrip] in IH. now rewrite IH.
Qed.

(** A text that ends in no whitespace has no tail that does. *)
Lemma rstrip_tail (c : ascii) (s : string) :
  rstrip (String c s) = String c s -> rstrip s = s.
Proof.
  cbn [rstrip]. destruct (rstrip s) as [|d r].
  - destruct (is_space c); [discriminate|]. now intros [= <-].
  - now intros [= <-].
Qed.

Lemma rstrip_drop (n : nat) (s : string) : rstrip s = s -> rstrip (drop n s) = drop n s.
Proof.
  revert s. induction n as [|n IH]; intros s H; [now destruct s|].
  destruct s as [|c s]; [reflexivity|]. cbn [drop]. apply IH. now apply rstrip_tail in H.
Qed.

Lemma spaced_drop (n : nat) (b : bool) (s : string) :
  spaced b s = true -> spaced false (drop n s) = true.
Proof.
  revert b s. induction n as [|n IH]; intros b s H.
  - destruct s; now apply spaced_weaken in H.
  - destruct s as [|c s]; [reflexivity|]. cbn [drop]. cbn [spaced] in H.
    destruct (is_space c); [apply andb_true_iff in H as [_ H]|]; now apply IH in H.
Qed.

Lemma drop_prefix_seps_shape (s : string) :
  spaced false s = true -> rstrip s = s ->
  spaced true (drop_prefix_seps s) = true
  /\ rstrip (drop_prefix_seps s) = drop_prefix_seps s
  /\ len (drop_prefix_seps s) <= len s.
Proof.
  induction s as [|c s IH]; intros Hs Hr; [auto|].
  cbn [drop_prefix_seps]. destruct (is_prefix_sep c) eqn:E.
  - destruct IH as (H1 & H2 & H3).
    + cbn [spaced] in Hs. destruct (is_space c);
        [apply andb_true_iff in Hs as [_ Hs]|]; now apply spaced_weaken in Hs.
    + now apply rstrip_tail in Hr.
    + repeat split; auto. unfold len in *. cbn. lia.
  - split; [|auto]. unfold is_prefix_sep in E. apply orb_false_iff in E as [E _].
    apply orb_false_iff in E as [E _]. cbn [spaced] in Hs |- *. now rewrite E in *.
Qed.

Lemma len_drop (n : nat) (s : string) : len (drop n s) <= len s.
Proof.
  revert s. induction n as [|n IH]; intros [|c s]; cbn [drop]; auto.
  specialize (IH s). unfold len in *. cbn. lia.
Qed.

Lemma strip_about_prefix_shape (alts : list string) (text : string) :
  spaced true text = true -> rstrip text = text ->
  spaced true (strip_about_prefix alts text) = true
  /\ rstrip (strip_about_prefix alts text) = strip_about_prefix alts text
  /\ len (strip_about_prefix alts text) <= len text.
Proof.
  intros Hs Hr. induction alts as [|p alts IH]; [auto|].
  cbn [strip_about_prefix]. destruct (String.eqb _ p); [|exact IH].
  destruct (drop (len p) text) as [|c rest] eqn:E; [exact IH|].
  destruct (is_prefix_sep c); [|exact IH].
  pose proof (spaced_drop (S (len p)) true text Hs) as Hs'.
  pose proof (rstrip_drop (S (len p)) text Hr) as Hr'.
  pose proof (len_drop (S (len p)) text) as Hl.
  assert (drop (S (len p)) text = rest) as Hrest.
  { clear -E. revert E. generalize (len p). intros n. revert text.
    induction n as [|n IH]; intros [|d text] E; try discriminate.
    - cbn [drop] in *. congruence.
    - cbn [drop] in E. apply IH in E. exact E. }
  rewrite Hrest in *. destruct (drop_prefix_seps_shape rest Hs' Hr') as (H1 & H2 & H3).
  repeat split; auto. lia.
Qed.

Lemma len_collapse_spaces (b : bool) (s : string) : len (collapse_spaces b s) <= len s.
Proof.
  revert b. induction s as [|c s IH]; intros b; [auto|]. cbn [collapse_spaces].
  destruct (is_space c); [destruct b|]; unfold len in *; cbn;
    [specialize (IH true) | specialize (IH true) | specialize (IH false)]; lia.
Qed.

Lemma len_lstrip (s : string) : len (lstrip s) <= len s.
Proof.
  induction s as [|c s IH]; [auto|]. cbn [lstrip].
  destruct (is_space c); unfold len in *; cbn; lia.
Qed.

Lemma len_rstrip (s : string) : len (rstrip s) <= len s.
Proof.
  induction s as [|c s IH]; [auto|]. cbn [rstrip].
  destruct (rstrip s); [destruct (is_space c)|]; unfold len in *; cbn in *; lia.
Qed.

Lemma clean_text_shape (text : option string) :
  spaced true (clean_text text) = true
  /\ rstrip (clean_text text) = clean_text text
  /\ len (clean_text text) <= len (default EmptyString text).
Proof.
  destruct text as [t|]; [|cbn; auto]. cbn [clean_text default from_option id].
  destruct (is_empty t); [cbn; split; [|split]; auto; lia|].
  destruct (strip_about_prefix_shape about_prefixes (strip (collapse_spaces false t)))
    as (H1 & H2 & H3).
  - unfold strip. apply rstrip_spaced, lstrip_spaced, collapse_spaces_spaced.
  - unfold strip. apply rstrip_idempotent.
  - repeat split; auto. unfold strip in H3.
    pose proof (len_rstrip (lstrip (collapse_spaces false t))).
    pose proof (len_lstrip (collapse_spaces false t)).
    pose proof (len_collapse_spaces false t). unfold strip. lia.
Qed.

(** The pieces of a split are never none. *)
Lemma split_scan_cons (m : split_mode) (s : string) :
  exists p ps, split_scan m s = p :: ps.
Proof.
  revert m. induction s as [|c s IH]; intros m; cbn [split_scan]; [eauto|].
  destruct m as [after|].
  - destruct (after && is_space c); [eauto|].
    destruct (IH (InPiece (is_terminator c))) as (p & ps & ->). cbn. eauto.
  - destruct (is_space c); [apply IH|].
    destruct (IH (InPiece (is_terminator c))) as (p & ps & ->). cbn. eauto.
Qed.

Lemma join_cons_head (c : ascii) (p : string) (ps : list string) :
  join " " (cons_head c (p :: ps)) = String c (join " " (p :: ps)).
Proof. now destruct ps. Qed.

(** On a text whose whitespace is single spaces, every separator is one
    space, and the join on spaces gives the text back. *)
Lemma join_split_scan (s : string) :
  (forall after b, spaced b s = true -> join " " (split_scan (InPiece after) s) = s)
  /\ (spaced true s = true -> join " " (split_scan InSeparator s) = s).
Proof.
  induction s as [|c s [IHp IHs]]; [split; reflexivity|].
  assert (forall b, spaced b (String c s) = true ->
            join " " (cons_head c (split_scan (InPiece (is_terminator c)) s)) = String c s)
    as Hpiece.
  { intros b H. destruct (split_scan_cons (InPiece (is_terminator c)) s) as (p & ps & E).
    rewrite E, join_cons_head, <- E. f_equal. cbn [spaced] in H.
    destruct (is_space c); [apply andb_true_iff in H as [_ H]|]; eapply IHp; exact H. }
  split.
  - intros after b H. cbn [split_scan]. destruct (after && is_space c) eqn:E; [|eauto].
    apply andb_true_iff in E as [_ E]. cbn [spaced] in H. rewrite E in H.
    apply andb_true_iff in H as [H Hs]. apply andb_true_iff in H as [H _].
    apply Ascii.eqb_eq in H as ->.
    destruct (split_scan_cons InSeparator s) as (p & ps & Ep).
    rewrite Ep.
    change (join " " (EmptyString :: p :: ps)) with (String " " (join " " (p :: ps))).
    rewrite <- Ep, (IHs Hs). reflexivity.
  - intros H. cbn [split_scan]. destruct (is_space c) eqn:E; [|eauto].
    cbn [spaced] in H. rewrite E, andb_false_r in H. discriminate.
Qed.

Lemma len_join_sum (parts : list string) :
  list_sum (map len parts) <= len (join " " parts).
Proof.
  induction parts as [|p parts IH]; [auto|].
  destruct parts as [|q parts].
  - change (len p + 0 <= len p). lia.
  - change (len p + list_sum (map len (q :: parts))
            <= len (p +:+ String " " (join " " (q :: parts)))).
    rewrite len_app.
    change (len (String " " (join " " (q :: parts)))) with (S (len (join " " (q :: parts)))).
    lia.
Qed.

End CleanText.

(** X4. The text [clean_text] returns holds no whitespace but single
    spaces, neither starts nor ends with whitespace, and is no longer than
    the text it was given. *)
Theorem clean_text_is_single_spaced (text : option string) :
  TextShape.spaced true (LocalEnricher.clean_text text) = true
  /\ PyStr.strip (LocalEnricher.clean_text text) = LocalEnricher.clean_text text
  /\ PyStr.len (LocalEnricher.clean_text text) <= PyStr.len (default EmptyString text).
Proof.
  destruct (clean_text_shape text) as (H1 & H2 & H3).
  split; [exact H1|]. split; [|exact H3].
  unfold PyStr.strip. now rewrite (spaced_lstrip _ H1).
Qed.

(** X5. On a text whose whitespace is single spaces, as every text that
    [clean_text] returns is, the sentences of the split joined on spaces are
    the text again. Hence [extract_summary] returns such a text as it is
    when it has from 20 to 350 characters and each of its sentences
    qualifies. *)
Theorem split_join_round_trip :
  (forall text : string,
     TextShape.spaced false text = true ->
     PyStr.join " " (LocalEnricher.split_sentences text) = text)
  /\ (forall text : option string,
        PyStr.join " " (LocalEnricher.split_sentences (LocalEnricher.clean_text text))
        = LocalEnricher.clean_text text)
  /\ (forall text : string,
        TextShape.spaced false text = true ->
        20 <= PyStr.len text <= 350 ->
        Forall (fun s => LocalEnricher.qualifies s = true) (LocalEnricher.split_sentences text) ->
        LocalEnricher.extract_summary (Some text) = Some text).
Proof.
  assert (forall text : string,
            TextShape.spaced false text = true ->
            PyStr.join " " (LocalEnricher.split_sentences text) = text) as Hround.
  { intros text H. now apply (proj1 (join_split_scan text) false false). }
  split; [exact Hround|]. split.
  - intros text. apply Hround. eapply spaced_weaken. apply clean_text_shape.
  - intros text Hs [Hlo Hhi] Hq. cbn [LocalEnricher.extract_summary].
    assert (PyStr.is_empty text || (PyStr.len text <? 20) = false) as ->.
    { apply orb_false_iff. split.
      - destruct text; [cbn in Hlo; lia | reflexivity].
      - apply Nat.ltb_ge. exact Hlo. }
    assert (filter (fun s => LocalEnricher.qualifies s = true) (LocalEnricher.split_sentences text)
            = LocalEnricher.split_sentences text) as Hall.
    { clear -Hq. induction Hq as [|s l Hs _ IH]; [reflexivity|].
      rewrite filter_cons, decide_True by exact Hs. now rewrite IH. }
    rewrite (collect_all_within_350 _ [] 0); cycle 1.
    { rewrite Hall. pose proof (len_join_sum (LocalEnricher.split_sentences text)) as H.
      rewrite (Hround text Hs) in H. cbn. lia. }
    cbn [app]. rewrite Hall.
    destruct (split_scan_cons (LocalEnricher.InPiece false) text) as (p & ps & E).
    unfold LocalEnricher.split_sentences in *. rewrite E. rewrite <- E, (Hround text Hs).
    unfold LocalEnricher.truncate.
    assert ((400 <? PyStr.len text) = false) as -> by (apply Nat.ltb_ge; lia).
    reflexivity.
Qed.

Lemma split_join_round_trip_witness :
  LocalEnricher.extract_summary (Some "Acme builds robots. It ships drones!")
  = Some "Acme builds robots. It ships drones!".
Proof.
  apply (proj2 (proj2 split_join_round_trip) "Acme builds robots. It ships drones!").
  - reflexivity.
  - cbn. lia.
  - repeat constructor.
Defined.

(** ** The loop of the summarizer *)

Lemma collect_stops (sentences acc : list string) (count : nat) :
  count <= 350 ->
  exists kept,
    LocalEnricher.collect sentences acc count = acc ++ kept
    /\ count + list_sum (map PyStr.len (take (length kept - 1) kept)) <= 350
    /\ (kept = filter (fun s => LocalEnricher.qualifies s = true) sentences
        \/ 350 < count + list_sum (map PyStr.len kept)).
Proof.
  revert acc count. induction sentences as [|sent rest IH]; intros acc count Hc.
  - exists []. rewrite app_nil_r. cbn. split; [reflexivity|]. split; [lia | now left].
  - cbn [LocalEnricher.collect]. rewrite filter_cons.
    destruct (LocalEnricher.qualifies sent) eqn:Q.
    + rewrite decide_True by reflexivity.
      destruct (350 <? count + PyStr.len sent) eqn:E.
      * apply Nat.ltb_lt in E. exists [sent]. split; [reflexivity|].
        cbn [length Nat.sub take map list_sum fold_right]. split; [lia | right; lia].
      * apply Nat.ltb_ge in E.
        destruct (IH (acc ++ [sent]) (count + PyStr.len sent) E) as (kept & -> & Hb & Hk).
        exists (sent :: kept). rewrite <- app_assoc. split; [reflexivity|]. split.
        -- destruct kept as [|s kept]; [cbn; lia|].
           cbn [length Nat.sub] in Hb |- *. rewrite Nat.sub_0_r in *.
           change (take (S (length kept)) (sent :: s :: kept))
             with (sent :: take (length kept) (s :: kept)).
           change (list_sum (map PyStr.len (sent :: take (length kept) (s :: kept))))
             with (PyStr.len sent + list_sum (map PyStr.len (take (length kept) (s :: kept)))).
           lia.
        -- destruct Hk as [-> | Hk]; [now left | right].
           change (list_sum (map PyStr.len (sent :: kept)))
             with (PyStr.len sent + list_sum (map PyStr.len kept)).
           lia.
    + rewrite decide_False by congruence. now apply IH.
Qed.

(** X6. The loop of [extract_summary] stops at the first sentence that
    takes the count of characters over 350: the sentences it keeps are a
    prefix of the qualifying ones, all of them but the last total at most
    350 characters, and it keeps every qualifying sentence unless the kept
    ones total more than 350. *)
Theorem extract_summary_stops_over_350 (sentences : list string) :
  let kept := LocalEnricher.collect sentences [] 0 in
  kept `prefix_of` filter (fun s => LocalEnricher.qualifies s = true) sentences
  /\ list_sum (map PyStr.len (take (length kept - 1) kept)) <= 350
  /\ (kept = filter (fun s => LocalEnricher.qualifies s = true) sentences
      \/ 350 < list_sum (map PyStr.len kept)).
Proof.
  cbv zeta. destruct (collect_prefix sentences [] 0) as (kept & E & Hp).
  destruct (collect_stops sentences [] 0) as (kept' & E' & Hb & Hk); [lia|].
  rewrite E' in *. cbn [app] in *. subst kept. auto.
Qed.

(** ** The local fallback: what it leaves alone *)

Section LocalFrame.

Import LocalEnricher.

(** The record after the two steps of the loop body. *)
Local Abbreviation filled cleaned startup :=
  (let startup1 := if needs_summary startup then fill_summary cleaned startup else startup in
   if needs_category startup then fill_category cleaned startup1 else startup1).

Lemma filled_other (cleaned k : string) (startup : record) :
  k <> "summary" -> k <> "confidence" -> k <> "category" -> k <> "tags" ->
  filled cleaned startup !! k = startup !! k.
Proof.
  intros. cbv zeta.
  destruct (needs_category startup), (needs_summary startup);
    rewrite ?fill_category_other, ?fill_summary_other by assumption; reflexivity.
Qed.

Lemma insert_keeps (r : record) (k k' : string) (v : json) :
  is_Some (r !! k) -> is_Some (<[k' := v]> r !! k).
Proof. intros H. apply lookup_insert_is_Some'. now right. Qed.

Lemma fill_summary_keeps (cleaned k : string) (startup : record) :
  is_Some (startup !! k) -> is_Some (fill_summary cleaned startup !! k).
Proof.
  intros H. unfold fill_summary.
  destruct (extract_summary (Some cleaned)) as [e|]; [destruct (PyStr.is_empty e)|];
    auto using insert_keeps.
Qed.

Lemma fill_category_keeps (cleaned k : string) (startup : record) :
  is_Some (startup !! k) -> is_Some (fill_category cleaned startup !! k).
Proof.
  intros H. unfold fill_category.
  destruct (PyStr.is_empty cleaned); [|destruct (Py.truthy _)]; auto using insert_keeps.
Qed.

Lemma needs_summary_of_lookup (r r' : record) :
  r' !! "summary" = r !! "summary" -> needs_summary r' = needs_summary r.
Proof. intros H. unfold needs_summary, Py.get. now rewrite H. Qed.

Lemma needs_category_of_lookup (r r' : record) :
  r' !! "category" = r !! "category" -> needs_category r' = needs_category r.
Proof. intros H. unfold needs_category, Py.get. now rewrite H. Qed.

(** No label that the categorizer answers is a sentinel of [needs_category]. *)
Lemma categorize_no_sentinel (cleaned : string) :
  Py.in_strs (JStr (categorize_by_keywords cleaned)) ["Error"; "No Data"] = false.
Proof.
  destruct (categorize_with_in category_keywords cleaned) as [H | H];
    fold (categorize_by_keywords cleaned) in H.
  - now rewrite H.
  - apply list_elem_of_In in H. cbn in H.
    repeat (destruct H as [<- | H]; [reflexivity|]). destruct H.
Qed.

Lemma filled_needs_no_category (cleaned : string) (startup : record) :
  needs_category (filled cleaned startup) = false.
Proof.
  cbv zeta. destruct (needs_category startup) eqn:Hn.
  - unfold needs_category, Py.get. rewrite fill_category_category. cbn [default from_option id].
    destruct (PyStr.is_empty cleaned); [reflexivity | apply categorize_no_sentinel].
  - destruct (needs_summary startup); [|exact Hn].
    rewrite <- Hn. apply needs_category_of_lookup. now apply fill_summary_other.
Qed.

(** Filling the summary again, with the same content, changes nothing. *)
Lemma fill_summary_again (cleaned : string) (r : record) :
  r !! "summary" = fill_summary cleaned r !! "summary" ->
  r !! "confidence" = fill_summary cleaned r !! "confidence" ->
  fill_summary cleaned r = r.
Proof.
  unfold fill_summary.
  destruct (extract_summary (Some cleaned)) as [e|]; [destruct (PyStr.is_empty e)|].
  - rewrite lookup_insert_eq. intros H _. now apply insert_id.
  - rewrite lookup_insert_ne, !lookup_insert_eq by done. intros Hs Hc.
    rewrite (insert_id r "summary") by exact Hs. now apply insert_id.
  - rewrite lookup_insert_eq. intros H _. now apply insert_id.
Qed.

Lemma enrich_record_again (about : about_map) (startup startup' : record) :
  enrich_record about startup = Some startup' ->
  enrich_record about startup' = Some startup'.
Proof.
  intros H. destruct (enrich_record_inv about startup startup' H)
    as [(Hs & Hc & ->) | (cleaned & Hcl & E)]; [exact H|].
  assert (cleaned_content_of about startup' = Some cleaned) as Hcl'.
  { unfold cleaned_content_of in *. rewrite E, filled_other by done. exact Hcl. }
  rewrite (enrich_record_defined about startup' cleaned Hcl').
  assert (needs_category startup' = false) as -> by (rewrite E; apply filled_needs_no_category).
  rewrite orb_false_r. destruct (needs_summary startup') eqn:Hs'; [|reflexivity].
  f_equal.
  assert (forall k, k = "summary" \/ k = "confidence" ->
            startup' !! k = (if needs_summary startup then fill_summary cleaned startup
                             else startup) !! k) as Hk.
  { intros k Hk. rewrite E. cbv zeta.
    destruct (needs_category startup); [|reflexivity].
    apply fill_category_other; destruct Hk as [-> | ->]; done. }
  destruct (needs_summary startup) eqn:Hs.
  - apply fill_summary_again.
    + symmetry. unfold fill_summary at 1.
      destruct (extract_summary (Some cleaned)) as [e|] eqn:Ee;
        [destruct (PyStr.is_empty e) eqn:Eempty|];
        rewrite ?lookup_insert_eq, ?lookup_insert_ne, ?lookup_insert_eq by done;
        rewrite (Hk "summary") by auto; unfold fill_summary; rewrite Ee, ?Eempty;
        now rewrite ?lookup_insert_eq, ?lookup_insert_ne, ?lookup_insert_eq by done.
    + symmetry. unfold fill_summary at 1.
      destruct (extract_summary (Some cleaned)) as [e|] eqn:Ee;
        [destruct (PyStr.is_empty e) eqn:Eempty|].
      * exfalso. rewrite (needs_summary_of_lookup (<["summary" := JStr "Information not available."]> startup)) in Hs';
          [rewrite (needs_summary_of_lookup (<["summary" := JStr "Information not available."]> ∅)) in Hs';
             [discriminate | now rewrite !lookup_insert_eq]|].
        rewrite (Hk "summary") by auto. unfold fill_summary. now rewrite Ee, Eempty.
      * rewrite lookup_insert_eq, (Hk "confidence") by auto. unfold fill_summary.
        rewrite Ee, Eempty. now rewrite lookup_insert_eq.
      * exfalso. rewrite (needs_summary_of_lookup (<["summary" := JStr "Information not available."]> startup)) in Hs';
          [rewrite (needs_summary_of_lookup (<["summary" := JStr "Information not available."]> ∅)) in Hs';
             [discriminate | now rewrite !lookup_insert_eq]|].
        rewrite (Hk "summary") by auto. unfold fill_summary. now rewrite Ee.
  - exfalso. rewrite (needs_summary_of_lookup startup) in Hs'; [congruence|].
    now apply Hk; left.
Qed.

End LocalFrame.

(** X7. [LocalEnricher.run] keeps the number and the order of the records;
    in each record it removes no field, writes no field but [summary],
    [confidence], [category] and [tags], so that the name stays, and
    leaves a record whose summary and category need nothing as it is. *)
Theorem local_run_frame (about : about_map) (results results' : list record) :
  LocalEnricher.run about results = Some results' ->
  length results' = length results
  /\ Forall2 (fun startup startup' =>
                (forall k, k <> "summary" -> k <> "confidence" -> k <> "category" ->
                           k <> "tags" -> startup' !! k = startup !! k)
                /\ (forall k, is_Some (startup !! k) -> is_Some (startup' !! k))
                /\ (LocalEnricher.needs_summary startup = false ->
                    LocalEnricher.needs_category startup = false ->
                    startup' = startup))
             results results'.
Proof.
  intros H. apply run_pointwise in H. split; [symmetry; eapply Forall2_length; exact H|].
  eapply Forall2_impl; [exact H|]. clear. intros startup startup' H.
  apply enrich_record_inv in H as [(_ & _ & ->) | (cleaned & _ & ->)]; [auto|].
  split; [|split].
  - intros k ? ? ? ?. now apply filled_other.
  - intros k Hk. cbv zeta.
    destruct (LocalEnricher.needs_category startup), (LocalEnricher.needs_summary startup);
      auto using fill_category_keeps, fill_summary_keeps.
  - intros -> ->. reflexivity.
Qed.

Lemma local_run_frame_witness :
  length [<["tags" := JArr [JStr "Robotics"]]>
            (<["category" := JStr "Robotics & Automation"]> Sample.acme_error)]
  = length [Sample.acme_error]
  /\ Forall2 (fun startup startup' : record =>
                (forall k, k <> "summary" -> k <> "confidence" -> k <> "category" ->
                           k <> "tags" -> startup' !! k = startup !! k)
                /\ (forall k, is_Some (startup !! k) -> is_Some (startup' !! k))
                /\ (LocalEnricher.needs_summary startup = false ->
                    LocalEnricher.needs_category startup = false ->
                    startup' = startup))
             [Sample.acme_error]
             [<["tags" := JArr [JStr "Robotics"]]>
                (<["category" := JStr "Robotics & Automation"]> Sample.acme_error)].
Proof.
  apply (local_run_frame Sample.acme_about). vm_compute. reflexivity.
Defined.

(** X8. [LocalEnricher.run] is idempotent: run on its own output, with the
    same about contents, it returns that output. After it no record has a
    category that is [Error] or [No Data]. *)
Theorem local_run_idempotent (about : about_map) (results results' : list record) :
  LocalEnricher.run about results = Some results' ->
  LocalEnricher.run about results' = Some results'
  /\ Forall (fun startup' => LocalEnricher.needs_category startup' = false) results'.
Proof.
  intros H. apply run_pointwise in H. induction H as [|r r' l l' Hr _ [IH1 IH2]].
  - split; [reflexivity | constructor].
  - split.
    + cbn [LocalEnricher.run]. now rewrite (enrich_record_again about r r' Hr), IH1.
    + constructor; [|exact IH2].
      apply enrich_record_inv in Hr as [(_ & Hc & ->) | (cleaned & _ & ->)]; [exact Hc|].
      apply filled_needs_no_category.
Qed.

Lemma local_run_idempotent_witness :
  LocalEnricher.run Sample.acme_about
    [<["tags" := JArr [JStr "Robotics"]]>
       (<["category" := JStr "Robotics & Automation"]> Sample.acme_error)]
  = Some [<["tags" := JArr [JStr "Robotics"]]>
            (<["category" := JStr "Robotics & Automation"]> Sample.acme_error)]
  /\ Forall (fun startup' => LocalEnricher.needs_category startup' = false)
       [<["tags" := JArr [JStr "Robotics"]]>
          (<["category" := JStr "Robotics & Automation"]> Sample.acme_error)].
Proof.
  apply (local_run_idempotent Sample.acme_about [Sample.acme_error]).
  vm_compute. reflexivity.
Defined.

(** ** The fetch stage: the record of a page *)

(** The three records that [process_startup] can return. *)
Lemma process_startup_cases (search find fetch : string -> option string) (name : string) :
  let r := StartupAboutFetcher.process_startup search find fetch name in
  ((search name = None \/ search name = Some EmptyString)
   /\ r = mk_page name None None None website_not_found)
  \/ exists website url,
       search name = Some website /\ website <> EmptyString /\ url <> EmptyString
       /\ (url = website \/ find website = Some url)
       /\ (((fetch url = None \/ fetch url = Some EmptyString)
            /\ r = mk_page name (Some website) (Some url) None content_fetch_failed)
           \/ exists content,
                fetch url = Some content /\ content <> EmptyString
                /\ r = mk_page name (Some website) (Some url) (Some content) success).
Proof.
  cbv zeta. unfold StartupAboutFetcher.process_startup.
  destruct (search name) as [website|] eqn:Es; [|left; auto].
  destruct (PyStr.is_empty website) eqn:Ew.
  { apply is_empty_true in Ew as ->. left; auto. }
  apply is_empty_false in Ew. right.
  assert (exists url,
            match find website with
            | Some url => if PyStr.is_empty url then website else url
            | None => website
            end = url
            /\ url <> EmptyString /\ (url = website \/ find website = Some url))
    as (url & -> & Hurl & Horigin).
  { destruct (find website) as [u|]; [|eauto].
    destruct (PyStr.is_empty u) eqn:Eu; [eauto|]. apply is_empty_false in Eu. eauto. }
  exists website, url. repeat (split; [assumption || reflexivity|]).
  destruct (fetch url) as [content|]; [|left; auto].
  destruct (PyStr.is_empty content) eqn:Ec.
  - apply is_empty_true in Ec as ->. left; auto.
  - apply is_empty_false in Ec. right. eauto.
Qed.

(** X9. The record that [process_startup] returns has the name it was
    given and is never left [pending]. Its status is [success] exactly when
    it holds an about content, which is then not empty; it is
    [website_not_found] exactly when it holds no website, and then no about
    page either. A website it holds is not empty, and comes with an about
    page that is the answer of the discovery or, failing that, the website
    itself. *)
Theorem fetch_record_status (search find fetch : string -> option string) (name : string) :
  let r := StartupAboutFetcher.process_startup search find fetch name in
  pg_name r = name
  /\ pg_status r <> pending
  /\ (pg_status r = success <->
      exists content, pg_about_content r = Some content /\ content <> EmptyString)
  /\ (pg_status r <> success <-> pg_about_content r = None)
  /\ (pg_status r = website_not_found <-> pg_website r = None)
  /\ (pg_website r = None -> pg_about_page_url r = None)
  /\ (forall website, pg_website r = Some website ->
        website <> EmptyString /\ search name = Some website
        /\ exists url, pg_about_page_url r = Some url /\ url <> EmptyString
                       /\ (url = website \/ find website = Some url)).
Proof.
  cbv zeta.
  destruct (process_startup_cases search find fetch name)
    as [[_ ->] | (website & url & Hs & Hw & Hu & Ho & [[_ ->] | (content & _ & Hc & ->)])];
    cbn [pg_name pg_website pg_about_page_url pg_about_content pg_status].
  - repeat split; intros; try congruence.
    match goal with H : exists _, _ |- _ => destruct H as (? & ? & _) end. congruence.
  - repeat split; intros; try congruence.
    + match goal with H : exists _, _ |- _ => destruct H as (? & ? & _) end. congruence.
    + exists url. injection H as <-. auto.
  - repeat split; intros; try congruence.
    + exists content. auto.
    + exists url. injection H as <-. auto.
Qed.

(** ** The fetch stage: the text of a page *)

Section PageText.

Import PyStr TextShape.

Lemma spaced_take (n : nat) (b : bool) (s : string) :
  spaced b s = true -> spaced b (take n s) = true.
Proof.
  revert b s. induction n as [|n IH]; intros b [|c s]; try reflexivity.
  cbn [take spaced]. destruct (is_space c).
  - intros H. apply andb_true_iff in H as [-> H]. now rewrite (IH true s H).
  - apply IH.
Qed.

Lemma spaced_dots (b : bool) (s : string) :
  spaced b s = true -> spaced b (s +:+ "...") = true.
Proof.
  revert b. induction s as [|c s IH]; intros b; [reflexivity|].
  change (String c s +:+ "...") with (String c (s +:+ "...")). cbn [spaced].
  destruct (is_space c).
  - intros H. apply andb_true_iff in H as [-> H]. now rewrite (IH true H).
  - apply IH.
Qed.

Lemma bound_text_shape (text : string) :
  len (PageContent.bound_text text) <= 2003
  /\ (spaced true text = true -> spaced true (PageContent.bound_text text) = true)
  /\ (text <> EmptyString -> PageContent.bound_text text <> EmptyString).
Proof.
  unfold PageContent.bound_text. destruct (2000 <? len text) eqn:E.
  - split; [|split].
    + rewrite len_app, len_take. change (len "...") with 3. lia.
    + intros H. now apply spaced_dots, spaced_take.
    + intros _. now destruct text.
  - apply Nat.ltb_ge in E. split; [lia | auto].
Qed.

End PageText.

(** X10. A text that [fetch_page_content] returns comes from an answer of
    status 200 to a non-empty URL; it has at most 2003 characters, no
    whitespace but single spaces, and no whitespace at its start. The
    about content that the fetch stage stores with it is never empty. *)
Theorem page_content_bounded
    (http_get : string -> option (Z * string)) (get_text : string -> option string) :
  (forall url content,
     PageContent.fetch_page_content http_get get_text url = Some content ->
     url <> EmptyString
     /\ (exists body, http_get url = Some (200%Z, body))
     /\ PyStr.len content <= 2003
     /\ TextShape.spaced true content = true)
  /\ (forall search find name content,
        pg_about_content
          (StartupAboutFetcher.process_startup search find
             (PageContent.fetch_page_content http_get get_text) name) = Some content ->
        1 <= PyStr.len content <= 2003 /\ TextShape.spaced true content = true).
Proof.
  assert (forall url content,
            PageContent.fetch_page_content http_get get_text url = Some content ->
            url <> EmptyString
            /\ (exists body, http_get url = Some (200%Z, body))
            /\ PyStr.len content <= 2003
            /\ TextShape.spaced true content = true) as Hfetch.
  { intros url content. unfold PageContent.fetch_page_content.
    destruct (PyStr.is_empty url) eqn:Eu; [discriminate|]. apply is_empty_false in Eu.
    destruct (http_get url) as [[code body]|]; [|discriminate].
    destruct (code =? 200)%Z eqn:Ec; [|discriminate]. apply Z.eqb_eq in Ec as ->.
    cbn [negb]. destruct (get_text body) as [text|]; [|discriminate].
    intros [= <-]. split; [exact Eu|]. split; [eauto|].
    destruct (bound_text_shape (PyStr.strip (LocalEnricher.collapse_spaces false text)))
      as (H1 & H2 & _).
    split; [exact H1|]. apply H2. unfold PyStr.strip.
    apply rstrip_spaced, lstrip_spaced, collapse_spaces_spaced. }
  split; [exact Hfetch|].
  intros search find name content H.
  pose proof (fetch_record_status search find
                (PageContent.fetch_page_content http_get get_text) name) as Hst.
  cbv zeta in Hst. destruct Hst as (_ & _ & Hsucc & _ & _ & _ & _).
  unfold StartupAboutFetcher.process_startup in H.
  destruct (search name) as [website|]; [|discriminate].
  destruct (PyStr.is_empty website); [discriminate|].
  destruct (PageContent.fetch_page_content http_get get_text _) as [c|] eqn:Ef; [|discriminate].
  destruct (PyStr.is_empty c) eqn:Ec; [discriminate|]. cbn in H. injection H as <-.
  destruct (Hfetch _ _ Ef) as (_ & _ & Hlen & Hsp).
  split; [|exact Hsp]. split; [|exact Hlen].
  destruct c; [discriminate | cbn; lia].
Qed.

Lemma page_content_bounded_witness :
  EmptyString <> "https://acme.example"
  /\ (exists body, Some (200%Z, "  Acme   builds robots. ") = Some (200%Z, body))
  /\ PyStr.len "Acme builds robots." <= 2003
  /\ TextShape.spaced true "Acme builds robots." = true.
Proof.
  destruct (proj1 (page_content_bounded
                     (fun _ => Some (200%Z, "  Acme   builds robots. ")) (fun body => Some body))
              "https://acme.example" "Acme builds robots.") as (H1 & H2 & H3 & H4).
  - reflexivity.
  - repeat split; auto.
Defined.

(** ** The enrich stage: the work list and the records *)

Section EnrichData.

Import StartupEnricher.



End EnrichData.


Section EnrichRecords.

Import StartupEnricher.

Variable generate_content : Gemini.prompt -> Gemini.api_outcome.
Variable json_loads : string -> Gemini.parse_result.
Variable startup_data : gmap string page.
Variable hall_data : gmap string record.

Local Abbreviation enrich_startup :=
  (StartupEnricher.enrich_startup generate_content json_loads startup_data hall_data).
Local Abbreviation enrich_with_ai :=
  (StartupEnricher.enrich_with_ai generate_content json_loads).



End EnrichRecords.



(** ** The categorize stage: what the producer does with the service *)

(** X13. The producer of the categorize stage returns, without the
    service, the [No Data] record for a page whose status is not [success]
    and the [Unknown] record for a page without about content. When the
    service is called and raises, answers without text, or answers text
    that does not parse, it returns an [Error] record whose explanation
    starts with [Failed to categorize: ]: the failure never leaves the
    producer. *)
Theorem categorize_failure_gives_record
    (generate_content : Gemini.prompt -> Gemini.api_outcome)
    (json_loads : string -> Gemini.parse_result) (startup_data : page) :
  (pg_status startup_data <> success ->
   StartupCategorizer.process_startup generate_content json_loads startup_data
   = Some (StartupCategorizer.mk_categorized startup_data
             (StartupCategorizer.sentinel "No Data" "Website or content not available")))
  /\ (pg_status startup_data = success ->
      Py.truthy_opt (pg_about_content startup_data) = false ->
      StartupCategorizer.process_startup generate_content json_loads startup_data
      = Some (StartupCategorizer.mk_categorized startup_data
                (StartupCategorizer.sentinel "Unknown" "No content available for analysis")))
  /\ (forall content,
        pg_status startup_data = success ->
        pg_about_content startup_data = Some content -> content <> EmptyString ->
        match generate_content
                (Gemini.mk_prompt (JStr (pg_name startup_data)) (PyStr.take 1500 content)) with
        | Gemini.ApiText text =>
            exists message,
              json_loads (StartupCategorizer.strip_fence (PyStr.strip text))
              = Gemini.ParseError message
        | _ => True
        end ->
        exists explanation,
          StartupCategorizer.process_startup generate_content json_loads startup_data
          = Some (StartupCategorizer.mk_categorized startup_data
                    (StartupCategorizer.sentinel "Error" explanation))
          /\ PyStr.startswith "Failed to categorize: " explanation = true).
Proof.
  unfold StartupCategorizer.process_startup. split; [|split].
  - intros H. destruct (pg_status startup_data); congruence.
  - intros -> H. unfold StartupCategorizer.categorize_startup.
    destruct (pg_about_content startup_data) as [content|]; [|reflexivity].
    cbn [Py.truthy_opt] in H. apply negb_false_iff in H. now rewrite H.
  - intros content -> Hc Hne Hfail. unfold StartupCategorizer.categorize_startup.
    rewrite Hc. apply is_empty_false in Hne. rewrite Hne.
    destruct (generate_content _) as [message| |text].
    + eexists. split; reflexivity.
    + eexists. split; reflexivity.
    + destruct Hfail as [message ->]. eexists. split; reflexivity.
Qed.

Lemma categorize_failure_gives_record_witness :
  let acme := mk_page "Acme" (Some "https://acme.example") (Some "https://acme.example/about")
                (Some "Acme builds robots.") success in
  exists explanation,
    StartupCategorizer.process_startup Sample.unavailable Sample.no_json acme
    = Some (StartupCategorizer.mk_categorized acme
              (StartupCategorizer.sentinel "Error" explanation))
    /\ PyStr.startswith "Failed to categorize: " explanation = true.
Proof.
  cbv zeta.
  apply (proj2 (proj2 (categorize_failure_gives_record Sample.unavailable Sample.no_json
                         (mk_page "Acme" (Some "https://acme.example")
                            (Some "https://acme.example/about")
                            (Some "Acme builds robots.") success)))
           "Acme builds robots.").
  - reflexivity.
  - reflexivity.
  - discriminate.
  - exact I.
Defined.



(** ** The enhance stage *)

Section EnhanceMore.

Import StartupEnhancer.

Variable generate_content : Gemini.prompt -> Gemini.api_outcome.
Variable search_linkedin : json -> json -> option string.
Variable about_content_map : about_map.

Local Abbreviation enhance_startup :=
  (StartupEnhancer.enhance_startup generate_content search_linkedin about_content_map).
Local Abbreviation run :=
  (StartupEnhancer.run generate_content search_linkedin about_content_map).

(** When no summary comes back, the first half changes nothing. *)
Lemma enhance_summary_none (name : json) (startup enhanced : record) :
  (forall content,
     Py.about_get about_content_map name = Some content ->
     generate_summary_with_ai generate_content name content = None
     \/ generate_summary_with_ai generate_content name content = Some EmptyString) ->
  StartupEnhancer.enhance_summary generate_content about_content_map name startup
  = Some enhanced ->
  enhanced = startup.
Proof.
  intros Hnone. unfold StartupEnhancer.enhance_summary.
  destruct (needs_summary startup); [|now intros [= <-]].
  destruct (Py.about_get about_content_map name) as [content|]; [|discriminate].
  cbn [mbind option_bind]. intros [= <-].
  destruct (Py.truthy_opt content); [|reflexivity].
  destruct (Hnone content eq_refl) as [-> | ->]; reflexivity.
Qed.

(** The loop of [run] replaces records by their enhancement, in place. *)
Lemma enhance_loop_spec (work : list (nat * record)) (results0 results results' : list record) :
  (forall i s, (i, s) ∈ work -> results0 !! i = Some s /\ needs_enhancement s = true) ->
  StartupEnhancer.loop generate_content search_linkedin about_content_map work results
  = Some results' ->
  (length results = length results0
   /\ forall j r', results !! j = Some r' ->
        exists r, results0 !! j = Some r
                  /\ (r' = r \/ (needs_enhancement r = true /\ enhance_startup r = Some r'))) ->
  length results' = length results0
  /\ forall j r', results' !! j = Some r' ->
       exists r, results0 !! j = Some r
                 /\ (r' = r \/ (needs_enhancement r = true /\ enhance_startup r = Some r')).
Proof.
  revert results. induction work as [|[i s] rest IH]; intros results Hwork; cbn [StartupEnhancer.loop].
  - now intros [= <-].
  - destruct (enhance_startup s) as [enhanced|] eqn:E; [|discriminate].
    cbn [mbind option_bind]. intros H [Hlen Hinv]. apply (IH (<[i := enhanced]> results)).
    + intros i' s' Hin. apply Hwork. now apply list_elem_of_further.
    + exact H.
    + split; [now rewrite length_insert|].
      intros j r' Hj. destruct (decide (i = j)) as [<- | Hne].
      * destruct (Hwork i s) as [H0 Hn]; [apply list_elem_of_here|].
        assert (i < length results) as Hi
          by (rewrite Hlen; now apply lookup_lt_Some in H0).
        rewrite list_lookup_insert_eq in Hj by exact Hi. injection Hj as <-.
        exists s. auto.
      * rewrite list_lookup_insert_ne in Hj by exact Hne. now apply Hinv.
Qed.

Lemma window_subseteq {A : Type} (limit : option Z) (start_index : Z) (work : list A) :
  StageRunner.window limit start_index work ⊆ work.
Proof.
  unfold StageRunner.window. destruct limit as [n|]; [|reflexivity].
  destruct (negb (n =? 0)%Z); [|reflexivity]. unfold StageRunner.py_slice.
  etransitivity; [apply sublist_subseteq, sublist_take | apply sublist_subseteq, sublist_drop].
Qed.

End EnhanceMore.

(** X15. [enhance_startup] leaves every field but [linkedin_url] as it was
    whenever no summary comes back: when the service raises or answers
    without text on every prompt, when it answers nothing but whitespace,
    and when the about content of the entity is absent or shorter than 50
    characters. No sentinel is written for the failure. *)
Theorem enhance_failure_leaves_record
    (generate_content : Gemini.prompt -> Gemini.api_outcome)
    (search_linkedin : json -> json -> option string)
    (about_content_map : about_map) (startup enhanced : record) :
  (forall p, match generate_content p with
             | Gemini.ApiText text => PyStr.strip text = EmptyString
             | _ => True
             end)
  \/ (forall name content,
        startup !! "name" = Some (JStr name) ->
        about_content_map !! name = Some (Some content) -> PyStr.len content < 50) ->
  StartupEnhancer.enhance_startup generate_content search_linkedin about_content_map startup
  = Some enhanced ->
  forall k, k <> "linkedin_url" -> enhanced !! k = startup !! k.
Proof.
  intros Hfail H k Hk.
  apply enhance_startup_inv in H as (name & e1 & Hname & H1 & ->).
  rewrite enhance_linkedin_other by exact Hk.
  apply enhance_summary_none in H1; [now rewrite H1|].
  intros content Hget. unfold StartupEnhancer.generate_summary_with_ai.
  destruct content as [content|]; [|now left].
  destruct (PyStr.is_empty content || (PyStr.len content <? 50)) eqn:E; [now left|].
  apply orb_false_iff in E as [Hne E]. apply Nat.ltb_ge in E.
  destruct Hfail as [Hfail | Hshort].
  - specialize (Hfail (Gemini.mk_prompt name (PyStr.take 1800 content))).
    destruct (generate_content _); [now left | now left | right; now rewrite Hfail].
  - exfalso. destruct name as [| | |n| |]; cbn in Hget; try discriminate;
      try (injection Hget as <-; discriminate).
    injection Hget as Hget.
    destruct (about_content_map !! n) as [[c|]|] eqn:En; cbn in Hget; try discriminate.
    + injection Hget as ->. specialize (Hshort n content Hname En). lia.
    + injection Hget as <-. discriminate.
Qed.

Lemma enhance_failure_leaves_record_witness :
  (<["linkedin_url" := JNull]> Sample.acme_no_data) !! "summary"
  = Sample.acme_no_data !! "summary".
Proof.
  apply (enhance_failure_leaves_record Sample.unavailable Sample.no_linkedin
           Sample.acme_about Sample.acme_no_data).
  - left. intros p. exact I.
  - vm_compute. reflexivity.
  - discriminate.
Defined.

(** X16. [enhance_startup] returns a record that needs no enhancement as
    it is. A record without a LinkedIn page for which the search finds
    none gets [linkedin_url = None] and still needs enhancement: the next
    run takes it up again. When the search finds a page, the record holds
    it afterwards. *)
Theorem enhance_linkedin_outcomes
    (generate_content : Gemini.prompt -> Gemini.api_outcome)
    (search_linkedin : json -> json -> option string)
    (about_content_map : about_map) (startup : record) :
  (forall name,
     startup !! "name" = Some name ->
     StartupEnhancer.needs_enhancement startup = false ->
     StartupEnhancer.enhance_startup generate_content search_linkedin about_content_map startup
     = Some startup)
  /\ (forall name enhanced,
        startup !! "name" = Some name ->
        Py.truthy (Py.get startup "linkedin_url") = false ->
        StartupEnhancer.enhance_startup generate_content search_linkedin about_content_map
          startup = Some enhanced ->
        match search_linkedin name (Py.get startup "website") with
        | Some url =>
            if PyStr.is_empty url
            then enhanced !! "linkedin_url" = Some JNull
                 /\ StartupEnhancer.needs_enhancement enhanced = true
            else enhanced !! "linkedin_url" = Some (JStr url)
        | None =>
            enhanced !! "linkedin_url" = Some JNull
            /\ StartupEnhancer.needs_enhancement enhanced = true
        end).
Proof.
  split.
  - intros name Hname Hn. unfold StartupEnhancer.needs_enhancement in Hn.
    apply orb_false_iff in Hn as [Hs Hl]. apply negb_false_iff in Hl.
    unfold StartupEnhancer.enhance_startup, StartupEnhancer.enhance_summary,
      StartupEnhancer.enhance_linkedin.
    rewrite Hname. cbn [mbind option_bind]. now rewrite Hs, Hl.
  - intros name enhanced Hname Hl H.
    apply enhance_startup_inv in H as (name' & e1 & Hname' & _ & ->).
    rewrite Hname in Hname'. injection Hname' as <-.
    unfold StartupEnhancer.enhance_linkedin. rewrite Hl.
    assert (forall r : record,
              StartupEnhancer.needs_enhancement (<["linkedin_url" := JNull]> r) = true) as Hneeds.
    { intros r. unfold StartupEnhancer.needs_enhancement.
      assert (Py.get (<["linkedin_url" := JNull]> r) "linkedin_url" = JNull) as ->
        by (unfold Py.get; now rewrite lookup_insert_eq).
      apply orb_true_r. }
    destruct (search_linkedin name (Py.get startup "website")) as [url|].
    + destruct (PyStr.is_empty url); rewrite lookup_insert_eq; auto.
    + rewrite lookup_insert_eq. auto.
Qed.

Lemma enhance_linkedin_outcomes_witness :
  match Sample.no_linkedin (JStr "Acme") (Py.get Sample.acme_no_data "website") with
  | Some url =>
      if PyStr.is_empty url
      then (<["linkedin_url" := JNull]> Sample.acme_no_data) !! "linkedin_url" = Some JNull
           /\ StartupEnhancer.needs_enhancement (<["linkedin_url" := JNull]> Sample.acme_no_data)
              = true
      else (<["linkedin_url" := JNull]> Sample.acme_no_data) !! "linkedin_url" = Some (JStr url)
  | None =>
      (<["linkedin_url" := JNull]> Sample.acme_no_data) !! "linkedin_url" = Some JNull
      /\ StartupEnhancer.needs_enhancement (<["linkedin_url" := JNull]> Sample.acme_no_data)
         = true
  end.
Proof.
  apply (proj2 (enhance_linkedin_outcomes Sample.unavailable Sample.no_linkedin
                  Sample.acme_about Sample.acme_no_data) (JStr "Acme")).
  - reflexivity.
  - reflexivity.
  - vm_compute. reflexivity.
Defined.

(** X17. [StartupEnhancer.run] keeps the number and the order of the
    records. Each record of its result is the record that stood there, or
    the enhancement of it when it needed enhancement; either way its name
    and its category are as they were. *)
Theorem enhance_run_in_place
    (generate_content : Gemini.prompt -> Gemini.api_outcome)
    (search_linkedin : json -> json -> option string)
    (about_content_map : about_map) (limit : option Z) (start_index : Z)
    (results results' : list record) :
  StartupEnhancer.run generate_content search_linkedin about_content_map
    limit start_index results = Some results' ->
  length results' = length results
  /\ forall j r', results' !! j = Some r' ->
       exists r, results !! j = Some r
                 /\ r' !! "name" = r !! "name"
                 /\ r' !! "category" = r !! "category"
                 /\ (r' = r
                     \/ (StartupEnhancer.needs_enhancement r = true
                         /\ StartupEnhancer.enhance_startup generate_content search_linkedin
                              about_content_map r = Some r')).
Proof.
  unfold StartupEnhancer.run. intros H.
  eapply enhance_loop_spec in H as [Hlen Hinv].
  - split; [exact Hlen|]. intros j r' Hj. destruct (Hinv j r' Hj) as (r & Hr & Hcase).
    exists r. split; [exact Hr|].
    assert (forall k, k <> "linkedin_url" -> k <> "summary" -> k <> "confidence" ->
              r' !! k = r !! k) as Hk.
    { intros k H1 H2 H3. destruct Hcase as [-> | [_ He]]; [reflexivity|].
      destruct (enhance_startup_fields _ _ _ r r' k He)
        as [? | [[? _] | [[? | ?] _]]]; congruence. }
    rewrite !Hk by done. auto.
  - intros i s Hin. apply window_subseteq in Hin.
    unfold StartupEnhancer.startups_to_process in Hin.
    apply list_elem_of_filter in Hin as [Hn Hin]. cbn in Hn.
    apply elem_of_lookup_imap in Hin as (i' & s' & [= -> ->] & Hs). auto.
  - split; [reflexivity|]. intros j r' Hj. exists r'. auto.
Qed.

Lemma enhance_run_in_place_witness :
  length [<["linkedin_url" := JNull]> Sample.acme_no_data] = length [Sample.acme_no_data]
  /\ forall j r', [<["linkedin_url" := JNull]> Sample.acme_no_data] !! j = Some r' ->
       exists r, [Sample.acme_no_data] !! j = Some r
                 /\ r' !! "name" = r !! "name"
                 /\ r' !! "category" = r !! "category"
                 /\ (r' = r
                     \/ (StartupEnhancer.needs_enhancement r = true
                         /\ StartupEnhancer.enhance_startup Sample.unavailable
                              Sample.no_linkedin Sample.acme_about r = Some r')).
Proof.
  apply (enhance_run_in_place Sample.unavailable Sample.no_linkedin Sample.acme_about
           None 0%Z [Sample.acme_no_data]).
  vm_compute. reflexivity.
Defined.

(** ** The link to the LinkedIn page *)

Section Link.

Import PyStr LinkedinLink.

Lemma contains_char_app (c : ascii) (a b : string) :
  contains (String c EmptyString) (a +:+ b)
  = contains (String c EmptyString) a || contains (String c EmptyString) b.
Proof.
  induction a as [|d a IH]; [reflexivity|].
  change (String d a +:+ b) with (String d (a +:+ b)). cbn [contains startswith].
  rewrite IH. destruct (Ascii.eqb c d); [|reflexivity].
  now destruct (a +:+ b), a.
Qed.

Lemma head_has_no (c x : ascii) (s : string) :
  contains (String x EmptyString) s = false ->
  contains (String x EmptyString) (hd EmptyString (split_char c s)) = false.
Proof.
  intros H. destruct (split_char_head c s) as (head & -> & _ & [-> | (rest & ->)]);
    [exact H|].
  rewrite contains_char_app in H. now apply orb_false_iff in H as [H _].
Qed.

Lemma clean_link_shape (href : string) :
  startswith "http" (clean_link href) = true
  /\ contains "?" (clean_link href) = false
  /\ contains "#" (clean_link href) = false.
Proof.
  unfold clean_link.
  set (url := hd EmptyString (split_char "#" (hd EmptyString (split_char "?" href)))).
  assert (contains "?" url = false) as Hq.
  { apply head_has_no. destruct (split_char_head "?" href) as (head & -> & H & _). exact H. }
  assert (contains "#" url = false) as Hh.
  { destruct (split_char_head "#" (hd EmptyString (split_char "?" href)))
      as (head & E & H & _). unfold url. now rewrite E. }
  destruct (startswith "http" url) eqn:E; [auto|].
  destruct (startswith "/" url).
  - split; [reflexivity|]. rewrite !contains_char_app, Hq, Hh. auto.
  - split; [reflexivity|]. rewrite !contains_char_app, Hq, Hh. auto.
Qed.

End Link.

(** X18. The link that strategy 1 of [search_linkedin] returns is cut
    from the first [href] of the page that holds [linkedin.com/company/]:
    it starts with [http] and holds neither a query string nor a fragment.
    It need not hold the LinkedIn address itself: for an [href] that has it
    in its query string alone, the link returned is the bare [https://]. *)
Theorem first_company_link_shape (hrefs : list string) :
  (forall url,
     LinkedinLink.first_company_link hrefs = Some url ->
     PyStr.startswith "http" url = true
     /\ PyStr.contains "?" url = false
     /\ PyStr.contains "#" url = false
     /\ exists before href after,
          hrefs = before ++ href :: after
          /\ Forall (fun h => PyStr.contains "linkedin.com/company/" h = false) before
          /\ PyStr.contains "linkedin.com/company/" href = true
          /\ url = LinkedinLink.clean_link href)
  /\ (LinkedinLink.first_company_link hrefs = None <->
      Forall (fun h => PyStr.contains "linkedin.com/company/" h = false) hrefs)
  /\ LinkedinLink.first_company_link ["/about"; "?next=linkedin.com/company/acme"]
     = Some "https://".
Proof.
  split; [|split; [|reflexivity]].
  - induction hrefs as [|href rest IH]; intros url; cbn [LinkedinLink.first_company_link];
      [discriminate|].
    destruct (PyStr.contains "linkedin.com/company/" href) eqn:E.
    + intros [= <-]. destruct (clean_link_shape href) as (H1 & H2 & H3).
      repeat split; auto. exists [], href, rest. auto.
    + intros H. destruct (IH url H) as (H1 & H2 & H3 & before & h & after & -> & Hb & Hh & ->).
      repeat split; auto. exists (href :: before), h, after. auto.
  - induction hrefs as [|href rest IH]; cbn [LinkedinLink.first_company_link];
      [split; auto|].
    destruct (PyStr.contains "linkedin.com/company/" href) eqn:E.
    + split; [discriminate|]. intros H. inversion H; congruence.
    + rewrite IH. split; [now constructor | intros H; now inversion H].
Qed.

Lemma first_company_link_shape_witness :
  PyStr.startswith "http" "https://www.linkedin.com/company/acme" = true
  /\ PyStr.contains "?" "https://www.linkedin.com/company/acme" = false
  /\ PyStr.contains "#" "https://www.linkedin.com/company/acme" = false
  /\ exists before href after,
       ["/about"; "https://www.linkedin.com/company/acme?trk=x#top"] = before ++ href :: after
       /\ Forall (fun h => PyStr.contains "linkedin.com/company/" h = false) before
       /\ PyStr.contains "linkedin.com/company/" href = true
       /\ "https://www.linkedin.com/company/acme" = LinkedinLink.clean_link href.
Proof.
  apply (proj1 (first_company_link_shape
                  ["/about"; "https://www.linkedin.com/company/acme?trk=x#top"])).
  reflexivity.
Defined.

(** ** The answer of the service *)

Section Answer.

Import PyStr.

Lemma split_char_cons (c : ascii) (s : string) :
  exists p ps, split_char c s = p :: ps.
Proof.
  induction s as [|a s (p & ps & IH)]; cbn [split_char]; [eauto|].
  rewrite IH. destruct (Ascii.eqb a c); eauto.
Qed.

(** [sep.join(s.split(sep))] is [s]. *)
Lemma join_split_char (c : ascii) (s : string) :
  join (String c EmptyString) (split_char c s) = s.
Proof.
  induction s as [|a s IH]; [reflexivity|]. cbn [split_char].
  destruct (split_char_cons c s) as (p & ps & Es). rewrite Es in *.
  destruct (Ascii.eqb a c) eqn:E.
  - apply Ascii.eqb_eq in E as ->.
    change (join (String c EmptyString) (EmptyString :: p :: ps))
      with (String c (join (String c EmptyString) (p :: ps))).
    now rewrite IH.
  - destruct ps; cbn in IH |- *; now rewrite <- IH.
Qed.

(** A split at a separator is the two splits, one after the other. *)
Lemma split_char_app (c : ascii) (a b : string) :
  split_char c (a +:+ String c b) = split_char c a ++ split_char c b.
Proof.
  induction a as [|d a IH]; cbn [split_char].
  - change (EmptyString +:+ String c b) with (String c b). cbn [split_char].
    now rewrite Ascii.eqb_refl.
  - change (String d a +:+ String c b) with (String d (a +:+ String c b)).
    cbn [split_char]. rewrite IH. destruct (Ascii.eqb d c); [reflexivity|].
    destruct (split_char_cons c a) as (p & ps & ->). reflexivity.
Qed.

Lemma startswith_app (p a b : string) :
  startswith p a = true -> startswith p (a +:+ b) = true.
Proof.
  revert a. induction p as [|c p IH]; intros a; [now destruct a|].
  destruct a as [|d a]; [discriminate|].
  change (String d a +:+ b) with (String d (a +:+ b)). cbn [startswith].
  destruct (Ascii.eqb c d); [apply IH | discriminate].
Qed.

Lemma split_char_line (c : ascii) (s : string) :
  contains (String c EmptyString) s = false -> split_char c s = [s].
Proof.
  induction s as [|a s IH]; [reflexivity|]. cbn [contains startswith split_char].
  rewrite Ascii.eqb_sym. destruct (Ascii.eqb a c); [destruct s; discriminate|].
  cbn [orb]. intros H. now rewrite (IH H).
Qed.

End Answer.

(** X19. A fenced answer is unwrapped: for an answer that is a line
    starting with the fence, a body, and a closing fence line, where no line
    of the body starts with the fence, the clean-up of the categorize stage
    returns the stripped body, and so does the clean-up of the enrich stage
    when no line of the body holds [json] in any case of letters. An answer
    that does not start with the fence is left as it is by both. *)
Theorem strip_fence_unwraps :
  (forall text, PyStr.startswith Gemini.fence text = false ->
     StartupCategorizer.strip_fence text = text /\ StartupEnricher.strip_fence text = text)
  /\ (forall opening body : string,
        PyStr.startswith Gemini.fence opening = true ->
        PyStr.contains Gemini.newline opening = false ->
        Forall (fun line => PyStr.startswith Gemini.fence line = false)
               (PyStr.split_char "010" body) ->
        let text := opening +:+ Gemini.newline +:+ body +:+ Gemini.newline +:+ Gemini.fence in
        StartupCategorizer.strip_fence text = PyStr.strip body
        /\ (Forall (fun line => PyStr.contains "json" (PyStr.lower line) = false)
                   (PyStr.split_char "010" body) ->
            StartupEnricher.strip_fence text = PyStr.strip body)).
Proof.
  split.
  - intros text H. unfold StartupCategorizer.strip_fence, StartupEnricher.strip_fence.
    now rewrite H.
  - intros opening body Hopen Hline Hbody. cbv zeta.
    assert (PyStr.split_char "010"
              (opening +:+ Gemini.newline +:+ body +:+ Gemini.newline +:+ Gemini.fence)
            = [opening] ++ PyStr.split_char "010" body ++ [Gemini.fence]) as Hsplit.
    { change (opening +:+ Gemini.newline +:+ body +:+ Gemini.newline +:+ Gemini.fence)
        with (opening +:+ String "010" (body +:+ String "010" Gemini.fence)).
      rewrite !split_char_app, (split_char_line _ opening Hline). reflexivity. }
    assert (PyStr.startswith Gemini.fence
              (opening +:+ Gemini.newline +:+ body +:+ Gemini.newline +:+ Gemini.fence) = true)
      as Hstart.
    { now apply startswith_app. }
    split.
    + unfold StartupCategorizer.strip_fence. rewrite Hstart, Hsplit, !filter_app.
      rewrite (filter_cons_False _ opening), filter_nil by (cbv beta; congruence).
      rewrite (filter_cons_False _ Gemini.fence), filter_nil by (cbv beta; discriminate).
      rewrite app_nil_l, app_nil_r.
      replace (filter _ (PyStr.split_char "010" body)) with (PyStr.split_char "010" body).
      * unfold Gemini.newline. now rewrite join_split_char.
      * clear -Hbody. induction Hbody as [|l ls Hl _ IH]; [reflexivity|].
        now rewrite filter_cons_True, <- IH by exact Hl.
    + intros Hjson. unfold StartupEnricher.strip_fence. rewrite Hstart, Hsplit, !filter_app.
      rewrite (filter_cons_False _ opening), filter_nil
        by (cbv beta; intros [? _]; congruence).
      rewrite (filter_cons_False _ Gemini.fence), filter_nil
        by (cbv beta; intros [? _]; discriminate).
      rewrite app_nil_l, app_nil_r.
      replace (filter _ (PyStr.split_char "010" body)) with (PyStr.split_char "010" body).
      * unfold Gemini.newline. now rewrite join_split_char.
      * clear -Hbody Hjson. induction Hbody as [|l ls Hl _ IH]; [reflexivity|].
        inversion Hjson as [|? ? Hj Hjs]; subst.
        now rewrite filter_cons_True, <- IH by auto.
Qed.

Lemma strip_fence_unwraps_witness :
  let text := "```json" +:+ Gemini.newline +:+ "[1, 2]" +:+ Gemini.newline +:+ Gemini.fence in
  StartupCategorizer.strip_fence text = PyStr.strip "[1, 2]"
  /\ (Forall (fun line => PyStr.contains "json" (PyStr.lower line) = false)
             (PyStr.split_char "010" "[1, 2]") ->
      StartupEnricher.strip_fence text = PyStr.strip "[1, 2]").
Proof.
  cbv zeta. apply (proj2 strip_fence_unwraps "```json" "[1, 2]").
  - reflexivity.
  - reflexivity.
  - repeat constructor.
Defined.

(** X20. The enrich stage stores the answer of the service as it is given:
    for an entity that was fetched with content, when the answer parses to
    an object that has the five keys, with a summary that is text or a
    list, [enrich_startup] returns a record whose [category], [summary],
    [key_offerings], [tags] and [confidence] are the values of the answer,
    whatever they are. The category is not compared with the labels of
    [categories], nor the confidence with a list of levels. *)
Theorem enrich_stores_the_answer_as_given
    (generate_content : Gemini.prompt -> Gemini.api_outcome)
    (json_loads : string -> Gemini.parse_result)
    (data : gmap string page) (halls : gmap string record)
    (name : string) (startup_info : page) (content text : string)
    (answer category confidence summary key_offerings tags : json) :
  data !! name = Some startup_info -> pg_status startup_info = success ->
  pg_about_content startup_info = Some content -> content <> EmptyString ->
  generate_content (Gemini.mk_prompt (JStr name) (PyStr.take 1800 content))
  = Gemini.ApiText text ->
  json_loads (StartupEnricher.strip_fence (PyStr.strip text)) = Gemini.Parsed answer ->
  Gemini.subscript answer "category" = Some category ->
  Gemini.subscript answer "confidence" = Some confidence ->
  Gemini.subscript answer "summary" = Some summary ->
  StartupEnricher.sliceable summary = true ->
  Gemini.subscript answer "key_offerings" = Some key_offerings ->
  Gemini.subscript answer "tags" = Some tags ->
  exists r,
    StartupEnricher.enrich_startup generate_content json_loads data halls name = Some r
    /\ StartupEnricher.result_name r = Some (JStr name)
    /\ r !! "category" = Some category
    /\ r !! "summary" = Some summary
    /\ r !! "key_offerings" = Some key_offerings
    /\ r !! "tags" = Some tags
    /\ r !! "confidence" = Some confidence.
Proof.
  intros Hd Hs Hc Hne Hg Hj Hcat Hconf Hsum Hsl Hko Htags.
  unfold StartupEnricher.enrich_startup, StartupEnricher.enrich_with_ai,
    StartupEnricher.result_name.
  apply is_empty_false in Hne. rewrite Hd.
  cbn [fmap option_fmap option_map mbind option_bind].
  rewrite Hs, Hc, Hne, Hg, Hj. cbn [fst].
  rewrite Hcat, Hconf, Hsum. cbn [mbind option_bind]. rewrite Hsl, Hko, Htags.
  cbn [mbind option_bind]. eexists. split; [reflexivity|].
  repeat split; reflexivity.
Qed.

Lemma enrich_stores_the_answer_as_given_witness :
  let acme := mk_page "Acme" (Some "https://acme.example") (Some "https://acme.example/about")
                (Some "Acme builds robots.") success in
  let answer := JObj [ ("category", JStr "Robots"); ("summary", JStr "Acme makes farm robots.");
                       ("key_offerings", JArr []); ("tags", JNull);
                       ("confidence", JStr "Certain") ] in
  ("Robots" ∉ StartupEnricher.categories)
  /\ exists r,
       StartupEnricher.enrich_startup Sample.summarizing (fun _ => Gemini.Parsed answer)
         {[ "Acme" := acme ]} ∅ "Acme" = Some r
       /\ StartupEnricher.result_name r = Some (JStr "Acme")
       /\ r !! "category" = Some (JStr "Robots")
       /\ r !! "summary" = Some (JStr "Acme makes farm robots.")
       /\ r !! "key_offerings" = Some (JArr [])
       /\ r !! "tags" = Some JNull
       /\ r !! "confidence" = Some (JStr "Certain").
Proof.
  cbv zeta. split.
  - intros H. unfold StartupEnricher.categories in H.
    repeat (apply elem_of_cons in H as [H|H]; [discriminate|]).
    now apply elem_of_nil in H.
  - apply (enrich_stores_the_answer_as_given Sample.summarizing _ _ ∅ "Acme"
             (mk_page "Acme" (Some "https://acme.example") (Some "https://acme.example/about")
                (Some "Acme builds robots.") success)
             "Acme builds robots." "Acme makes farm robots."
             (JObj [ ("category", JStr "Robots"); ("summary", JStr "Acme makes farm robots.");
                     ("key_offerings", JArr []); ("tags", JNull);
                     ("confidence", JStr "Certain") ])
             (JStr "Robots") (JStr "Certain") (JStr "Acme makes farm robots.") (JArr []) JNull);
      try reflexivity.
    discriminate.
Defined.
